(** * ScoreGenie: the piano key labelling table and the MIDI to MP3 wrapper

    A shallow embedding of [labeling_to_numbers.py] and [midi_to_mp3.py].

    Python values are modelled as follows.
    - [int] is [Z] (unbounded, as in Python).
    - [str] is [string] where every name is written with characters
      below code point 256 (module [Labeling]); among these [int(c)]
      accepts exactly ['0'] to ['9']. Module [Unicode] has the lookup on
      arbitrary strings, as lists of code points, and the two agree on
      the former ([unicode_lookup_latin1]). Message texts are kept as
      their UTF-8 bytes, and file paths are never inspected.
    - a raised exception is the left injection of a sum ([result]).
    - a dict is a [gmap]; a list is a [list].
*)

From Stdlib Require Import ZArith String Ascii List Lia.
From Stdlib Require Import Numbers.DecimalString.
From stdpp Require Import gmap strings list sorting.

#[local] Open Scope Z_scope.

(** ** Python built-ins shared by both scripts *)

Module Py.

(** A computation that returns an [A] or raises an exception of [E]. *)
Definition result (E A : Type) : Type := (E + A)%type.

Definition ret {E A} (a : A) : result E A := inr a.
Definition raise {E A} (e : E) : result E A := inl e.

Definition bind {E A B} (m : result E A) (k : A -> result E B) : result E B :=
  match m with
  | inl e => inl e
  | inr a => k a
  end.

(** [try: body / except: handler] with a bare [except]. *)
Definition try_except {E A} (body : result E A) (handler : E -> result E A)
    : result E A :=
  match body with
  | inl e => handler e
  | inr a => inr a
  end.

Definition raises {E A} (m : result E A) : Prop := exists e, m = inl e.

(** [for x in xs: st = body x st], stopping at the first exception. *)
Fixpoint for_each {E X S} (xs : list X) (body : X -> S -> result E S) (st : S)
    : result E S :=
  match xs with
  | [] => ret st
  | x :: xs' => bind (body x st) (for_each xs' body)
  end.

(** [s[:-1]] *)
Fixpoint slice_but_last (s : string) : string :=
  match s with
  | EmptyString => EmptyString
  | String c s' =>
      match s' with
      | EmptyString => EmptyString
      | String _ _ => String c (slice_but_last s')
      end
  end.

Definition is_digit (c : ascii) : bool :=
  let n := Z.of_N (N_of_ascii c) in (48 <=? n) && (n <=? 57).

Definition digit_value (c : ascii) : Z := Z.of_N (N_of_ascii c) - 48.

(** The decimal digit character of value [n]. *)
Definition digit_char (n : Z) : ascii := ascii_of_N (Z.to_N (48 + n)).

(** [str(n)] for an [int]. *)
Definition str (n : Z) : string := NilZero.string_of_int (Z.to_int n).

(** [range(lo, hi)] *)
Definition range (lo hi : Z) : list Z := seqZ lo (hi - lo).

(** [dict(zip(ks, vs))]: pairs are inserted from left to right, so a
    later pair overrides an earlier one with the same key. *)
Definition dict_zip `{Countable K} {V} (ks : list K) (vs : list V) : gmap K V :=
  fold_left (fun m kv => <[kv.1 := kv.2]> m) (zip ks vs) ∅.

End Py.

Import Py.

Notation "'do' x <- m ; k" := (bind m (fun x => k))
  (at level 10, x name, m at level 100, k at level 200).

(** ** labeling_to_numbers.py *)

Module Labeling.

(** The exceptions the built-ins used by this script raise. *)
Inductive exn : Type :=
  | IndexError
  | ValueError
  | KeyError (key : string).

Abbreviation result := (Py.result exn).

(** [s[-1]], which raises [IndexError] on the empty string. *)
Fixpoint index_last (s : string) : result ascii :=
  match s with
  | EmptyString => raise IndexError
  | String c s' =>
      match s' with
      | EmptyString => ret c
      | String _ _ => index_last s'
      end
  end.

(** [int(c)] for a one-character string. *)
Definition int_of_char (c : ascii) : result Z :=
  if is_digit c then ret (digit_value c) else raise ValueError.

(** The items of the dict literal [note_map], in source order. *)
Definition note_map_items : list (string * Z) :=
  [("C", 0); ("C#", 1); ("D", 2); ("D#", 3); ("E", 4); ("F", 5);
   ("F#", 6); ("G", 7); ("G#", 8); ("A", 9); ("A#", 10); ("B", 11)].

Definition note_map : gmap string Z := list_to_map note_map_items.

Definition midi_note_to_key_number (note : string) : result Z :=
  let note_name := slice_but_last note in
  do c <- index_last note;
  do octave <- int_of_char c;
  do offset <- match note_map !! note_name with
            | Some v => ret v
            | None => raise (KeyError note_name)
            end;
  let midi_number := (octave + 1) * 12 + offset in
  let key_number := midi_number - 21 in
  ret key_number.

Definition note_names : list string :=
  ["C"; "C#"; "D"; "D#"; "E"; "F"; "F#"; "G"; "G#"; "A"; "A#"; "B"].

Definition octaves : list Z := range 0 9.

(** The accumulators [notes] and [labels] of [generate_all_piano_keys]. *)
Definition keys : Type := (list string * list Z)%type.

(** The body of the inner loop: the [try] block with its bare [except]. *)
Definition try_note (octave : Z) (note_name : string) (acc : keys) : result keys :=
  let note := note_name +:+ str octave in
  try_except
    (do label <- midi_note_to_key_number note;
     if (0 <=? label) && (label <=? 87)
     then ret (acc.1 ++ [note], acc.2 ++ [label])
     else ret acc)
    (fun _ => ret acc).

Definition generate_keys (octs : list Z) (names : list string) : result keys :=
  for_each octs (fun octave => for_each names (try_note octave)) ([], []).

Definition generate_all_piano_keys : result keys :=
  generate_keys octaves note_names.

(** The same table as a two-step pipeline: list the candidate names in
    the order the two loops visit them, then keep those whose label is
    in 0..87. *)
Definition candidates (octs : list Z) (names : list string) : list string :=
  octs ≫= (fun octave => (fun note_name => note_name +:+ str octave) <$> names).

Definition retained_label (note : string) : option Z :=
  match midi_note_to_key_number note with
  | inr label => if (0 <=? label) && (label <=? 87) then Some label else None
  | inl _ => None
  end.

Definition retained (cands : list string) : list (string * Z) :=
  omap (fun note => (fun label => (note, label)) <$> retained_label note) cands.

(** The position of a key in the iteration: its octave and the index of
    its note token in [note_names], compared octave first. *)
Definition key_before (a b : Z * nat) : Prop :=
  a.1 < b.1 \/ (a.1 = b.1 /\ (a.2 < b.2)%nat).

#[global] Instance key_before_dec : RelDecision key_before.
Proof. intros a b. unfold key_before. apply _. Defined.

Definition note_at (k : Z * nat) : string :=
  default "" (note_names !! k.2) +:+ str k.1.

(** [[f x for x in xs]] where [f] may raise. *)
Fixpoint comprehension {X Y} (f : X -> result Y) (xs : list X)
    : result (list Y) :=
  match xs with
  | [] => ret []
  | x :: xs' =>
      do y <- f x;
      do ys <- comprehension f xs';
      ret (y :: ys)
  end.

(** The columns of the data frame built by [create_labeling_dataframe]. *)
Record DataFrame : Type := mkDataFrame {
  Note : list string;
  Label : list Z;
  MIDI_Number : list Z;
  Octave : list Z;
  Note_Name : list string
}.

Definition create_labeling_dataframe : result DataFrame :=
  do nl <- generate_all_piano_keys;
  let notes := nl.1 in
  let labels := nl.2 in
  let midi_numbers := map (fun label => label + 21) labels in
  do octs <- comprehension (fun note => do c <- index_last note; int_of_char c) notes;
  let names := map slice_but_last notes in
  (* pandas refuses columns of different lengths *)
  if bool_decide (length notes = length labels)
  then ret (mkDataFrame notes labels midi_numbers octs names)
  else raise ValueError.

Definition black_keys : list string := ["C#"; "D#"; "F#"; "G#"; "A#"].

(** The column [df['Key_Type']] computed by [visualize_piano_mapping]. *)
Definition Key_Type (df : DataFrame) : list string :=
  map (fun x => if bool_decide (x ∈ black_keys) then "Black" else "White")
      (Note_Name df).

(** [df['Key_Type'].value_counts()] at one value. *)
Definition value_count (col : list string) (v : string) : nat :=
  length (filter (fun x => x = v) col).

(** The two dictionaries built at the end of the script from the data
    frame that [validate_labeling] returns. *)
Definition note_to_label (df : DataFrame) : gmap string Z :=
  dict_zip (Note df) (Label df).

Definition label_to_note (df : DataFrame) : gmap Z string :=
  dict_zip (Label df) (Note df).

(** [col.duplicated().sum()]: the number of entries that repeat an
    earlier entry of the column ([seen] holds the earlier ones). *)
Fixpoint duplicated_sum (seen col : list Z) : nat :=
  match col with
  | [] => 0
  | x :: rest =>
      ((if bool_decide (x ∈ seen) then 1 else 0) + duplicated_sum (x :: seen) rest)%nat
  end.

(** [col.min()] and [col.max()], which are not numbers on an empty column. *)
Definition series_min (col : list Z) : option Z :=
  match col with
  | [] => None
  | x :: rest => Some (foldr Z.min x rest)
  end.

Definition series_max (col : list Z) : option Z :=
  match col with
  | [] => None
  | x :: rest => Some (foldr Z.max x rest)
  end.

(** [df[df['Note'] == note]['Label'].iloc[0]] under the guard
    [note in df['Note'].values]. *)
Definition label_of_note (df : DataFrame) (note : string) : option Z :=
  snd <$> head (filter (fun row => row.1 = note) (zip (Note df) (Label df))).

Definition important_notes : list string := ["A0"; "C1"; "C4"; "A4"; "C8"].

(** The values that the print statements of [validate_labeling] show. *)
Record ValidationReport : Type := mkReport {
  total : nat;
  label_min : option Z;
  label_max : option Z;
  duplicate_count : nat;
  missing_labels : gset Z;
  important : list (string * Z)
}.

Definition validation_report (df : DataFrame) : ValidationReport :=
  {| total := length (Label df);
     label_min := series_min (Label df);
     label_max := series_max (Label df);
     duplicate_count := duplicated_sum [] (Label df);
     missing_labels := list_to_set (range 0 88) ∖ list_to_set (Label df);
     important :=
       omap (fun note => (fun label => (note, label)) <$> label_of_note df note)
            important_notes |}.

(** [validate_labeling] builds the frame, prints the report and returns
    the frame. *)
Definition validate_labeling : result (ValidationReport * DataFrame) :=
  do df <- create_labeling_dataframe;
  ret (validation_report df, df).

(** The distinct entries of a column in the order they first appear. *)
Fixpoint first_seen (seen col : list string) : list string :=
  match col with
  | [] => []
  | x :: rest =>
      if bool_decide (x ∈ seen) then first_seen seen rest
      else x :: first_seen (x :: seen) rest
  end.

(** [col.value_counts()]: every distinct value with its number of
    occurrences, the most frequent first. *)
Definition at_least_as_frequent (a b : string * nat) : Prop := (b.2 <= a.2)%nat.

#[global] Instance at_least_as_frequent_dec : RelDecision at_least_as_frequent.
Proof. intros a b. unfold at_least_as_frequent. apply _. Defined.

Definition value_counts (col : list string) : list (string * nat) :=
  merge_sort at_least_as_frequent
    ((fun v => (v, value_count col v)) <$> first_seen [] col).

(** [plt.pie(x, labels=labels)]: the slices in drawing order, each with
    its label; matplotlib refuses label lists of another length. *)
Definition pie (x : list nat) (labels : list string) : result (list (string * nat)) :=
  if bool_decide (length labels = length x)
  then ret (zip labels x)
  else raise ValueError.

(** The third subplot of [visualize_piano_mapping]. *)
Definition key_type_pie : result (list (string * nat)) :=
  do df <- create_labeling_dataframe;
  let key_type_counts := value_counts (Key_Type df) in
  pie key_type_counts.*2 ["흑건"; "백건"].

End Labeling.

Import Labeling.

(** ** The single-note lookup on every Python string

    [Labeling.midi_note_to_key_number] reads a name whose characters are
    all below code point 256. A Python [str] can hold any code point,
    and [int] accepts every character that has a decimal digit value in
    the Unicode database, not only ['0'] to ['9']. This module models
    the same function on lists of code points. *)

Module Unicode.

Inductive exn : Type :=
  | IndexError
  | ValueError
  | KeyError (key : list N).

Abbreviation result := (Py.result exn).

(** The code points of a string written with characters below 256. *)
Definition code_points (s : string) : list N :=
  N_of_ascii <$> String.list_ascii_of_string s.

(** The decimal digits of the Unicode database (version 14.0, the one
    of Python 3.11; later versions only add runs): they come in runs of
    ten consecutive code points with the values 0 to 9, listed here by
    their first code point. *)
Definition decimal_runs : list N :=
  [48; 1632; 1776; 1984; 2406; 2534; 2662; 2790; 2918; 3046; 3174; 3302;
   3430; 3558; 3664; 3792; 3872; 4160; 4240; 6112; 6160; 6470; 6608; 6784;
   6800; 6992; 7088; 7232; 7248; 42528; 43216; 43264; 43472; 43504; 43600;
   44016; 65296; 66720; 68912; 69734; 69872; 69942; 70096; 70384; 70736;
   70864; 71248; 71360; 71472; 71904; 72016; 72784; 73040; 73120; 92768;
   92864; 93008; 120782; 120792; 120802; 120812; 120822; 123200; 123632;
   125264; 130032]%N.

(** [unicodedata.decimal(c, None)] *)
Definition decimal (c : N) : option Z :=
  (fun start => Z.of_N (c - start)) <$>
    List.find (fun start => (start <=? c)%N && (c <? start + 10)%N) decimal_runs.

(** [int(c)] for a one-character string. *)
Definition int_of_char (c : N) : result Z :=
  match decimal c with
  | Some d => ret d
  | None => raise ValueError
  end.

(** [s[-1]], which raises [IndexError] on the empty string. *)
Definition index_last (s : list N) : result N :=
  match last s with
  | Some c => ret c
  | None => raise IndexError
  end.

Definition note_map : gmap (list N) Z :=
  list_to_map ((fun item => (code_points item.1, item.2)) <$> note_map_items).

Definition midi_note_to_key_number (note : list N) : result Z :=
  let note_name := removelast note in
  do c <- index_last note;
  do octave <- int_of_char c;
  do offset <- match note_map !! note_name with
            | Some v => ret v
            | None => raise (KeyError note_name)
            end;
  let midi_number := (octave + 1) * 12 + offset in
  let key_number := midi_number - 21 in
  ret key_number.

(** The exceptions of the two models, side by side. *)
Definition of_latin1_exn (e : Labeling.exn) : exn :=
  match e with
  | Labeling.IndexError => IndexError
  | Labeling.ValueError => ValueError
  | Labeling.KeyError key => KeyError (code_points key)
  end.

Definition tokens : list (list N) := code_points <$> note_names.

(** A name as the lookup accepts it: a note token followed by one
    character that has a decimal digit value. *)
Definition accepted (note : list N) : Prop :=
  exists note_name c,
    note = note_name ++ [c] /\ note_name ∈ tokens /\ is_Some (decimal c).

(** A name with its octave written as one of the digits 0 to 9. *)
Definition ascii_digit (c : N) : Prop := (48 <= c <= 57)%N.

Definition well_formed (note : list N) : Prop :=
  exists note_name c,
    note = note_name ++ [c] /\ note_name ∈ tokens /\ ascii_digit c.

End Unicode.

(** ** midi_to_mp3.py *)

Module MidiToMp3.

(** The exceptions that can leave [midi_to_mp3]: the two classes the
    script names, and [OSError] for any other exception that a library
    call raises (a missing executable, a permission problem, ...). *)
Inductive exn : Type :=
  | FileNotFoundError (msg : string)
  | CalledProcessError (returncode : Z) (cmd : list string) (stderr : string)
  | OSError (msg : string).

(** What [subprocess.run(..., stdout=PIPE, stderr=PIPE)] hands back. *)
Record CompletedProcess : Type := mkCompleted {
  returncode : Z;
  stdout : string;
  stderr : string
}.

(** The operating system and the run-time library as the script sees
    them. [World] is everything outside the process: the file system and
    the installed programs. A call that can change the world returns the
    new one. *)
Record OS (World : Type) : Type := mkOS {
  os_isfile : World -> string -> bool;
  os_isdir : World -> string -> bool;
  (* os.makedirs(path, exist_ok=True) *)
  os_makedirs : World -> string -> World * option exn;
  (* runs a command to completion; [inl] when it cannot be started *)
  os_spawn : World -> list string -> World * (exn + CompletedProcess);
  os_remove : World -> string -> World * option exn;
  path_dirname : string -> string;
  path_basename : string -> string;
  path_splitext : string -> string * string;
  path_join : string -> string -> string;
  (* bytes.decode("utf-8", errors="ignore") *)
  decode_utf8_ignore : string -> string;
  (* str(e) for an exception *)
  exn_str : exn -> string
}.

Arguments os_isfile {World}.
Arguments os_isdir {World}.
Arguments os_makedirs {World}.
Arguments os_spawn {World}.
Arguments os_remove {World}.
Arguments path_dirname {World}.
Arguments path_basename {World}.
Arguments path_splitext {World}.
Arguments path_join {World}.
Arguments decode_utf8_ignore {World}.
Arguments exn_str {World}.

(** The state a run goes through: the world, the lines printed so far
    and the commands handed to [subprocess.run] so far. *)
Record state (World : Type) : Type := mkState {
  world : World;
  printed : list string;
  calls : list (list string)
}.

Arguments mkState {World}.
Arguments world {World}.
Arguments printed {World}.
Arguments calls {World}.

Section Program.

Context {World : Type} (os : OS World).

Definition prog (A : Type) : Type :=
  state World -> Py.result exn A * state World.

Definition pure {A} (a : A) : prog A := fun s => (inr a, s).
Definition throw {A} (e : exn) : prog A := fun s => (inl e, s).

Definition and_then {A B} (m : prog A) (k : A -> prog B) : prog B :=
  fun s =>
    match m s with
    | (inl e, s') => (inl e, s')
    | (inr a, s') => k a s'
    end.

Notation "'io' x <- m ; k" := (and_then m (fun x => k))
  (at level 10, x name, m at level 100, k at level 200).

(** [try: body / except subprocess.CalledProcessError as e: handler] *)
Definition try_except_CalledProcessError {A} (body : prog A)
    (handler : Z -> list string -> string -> prog A) : prog A :=
  fun s =>
    match body s with
    | (inl (CalledProcessError rc cmd err), s') => handler rc cmd err s'
    | other => other
    end.

(** [try: body / except Exception as e: handler]; every exception of
    [exn] is an [Exception]. *)
Definition try_except_Exception {A} (body : prog A) (handler : exn -> prog A)
    : prog A :=
  fun s =>
    match body s with
    | (inl e, s') => handler e s'
    | (inr a, s') => (inr a, s')
    end.

Definition print (line : string) : prog unit :=
  fun s => (inr tt, mkState (world s) (printed s ++ [line]) (calls s)).

Definition isfile (path : string) : prog bool :=
  fun s => (inr (os_isfile os (world s) path), s).

Definition isdir (path : string) : prog bool :=
  fun s => (inr (os_isdir os (world s) path), s).

Definition lift_os (step : World -> World * option exn) : prog unit :=
  fun s =>
    let (w, r) := step (world s) in
    (match r with Some e => inl e | None => inr tt end,
     mkState w (printed s) (calls s)).

Definition makedirs (path : string) : prog unit :=
  lift_os (fun w => os_makedirs os w path).

Definition remove (path : string) : prog unit :=
  lift_os (fun w => os_remove os w path).

(** [subprocess.run(cmd, check=True, stdout=PIPE, stderr=PIPE)] *)
Definition subprocess_run (cmd : list string) : prog CompletedProcess :=
  fun s =>
    let (w, r) := os_spawn os (world s) cmd in
    let s' := mkState w (printed s) (calls s ++ [cmd]) in
    match r with
    | inl e => (inl e, s')
    | inr done =>
        if returncode done =? 0 then (inr done, s')
        else (inl (CalledProcessError (returncode done) cmd (stderr done)), s')
    end.

(** The local variables [wav_path], [fluidsynth_cmd] and [ffmpeg_cmd]. *)
Definition wav_path_of (midi_path output_mp3_path : string) : string :=
  let mp3_dir := path_dirname os output_mp3_path in
  let base_name := (path_splitext os (path_basename os midi_path)).1 in
  path_join os mp3_dir (base_name +:+ ".wav").

Definition fluidsynth_cmd_of (wav_path : string) (sample_rate : Z)
    (soundfont_path midi_path : string) : list string :=
  ["fluidsynth"; "-ni"; "-F"; wav_path; "-r"; str sample_rate;
   soundfont_path; midi_path].

Definition ffmpeg_cmd_of (wav_path : string) (vbr_qscale : Z)
    (output_mp3_path : string) : list string :=
  ["ffmpeg"; "-y"; "-i"; wav_path; "-codec:a"; "libmp3lame";
   "-qscale:a"; str vbr_qscale; output_mp3_path].

Definition midi_missing (midi_path : string) : exn :=
  FileNotFoundError ("MIDI 파일을 찾을 수 없습니다: " +:+ midi_path).

Definition soundfont_missing (soundfont_path : string) : exn :=
  FileNotFoundError ("SoundFont 파일을 찾을 수 없습니다: " +:+ soundfont_path).

Definition wav_missing (wav_path : string) : exn :=
  FileNotFoundError ("WAV 파일 생성에 실패했습니다. 예상 경로: " +:+ wav_path).

Definition mp3_missing (output_mp3_path : string) : exn :=
  FileNotFoundError ("MP3 파일 생성에 실패했습니다. 예상 경로: " +:+ output_mp3_path).

(** Step 1 of the function: the two input checks and the output folder. *)
Definition check_paths (midi_path soundfont_path output_mp3_path : string)
    : prog unit :=
  io midi_found <- isfile midi_path;
  if negb midi_found then throw (midi_missing midi_path) else
  io soundfont_found <- isfile soundfont_path;
  if negb soundfont_found then throw (soundfont_missing soundfont_path) else
  let mp3_dir := path_dirname os output_mp3_path in
  if bool_decide (mp3_dir <> "")
  then io dir_found <- isdir mp3_dir;
       if negb dir_found then makedirs mp3_dir else pure tt
  else pure tt.

(** Step 2: FluidSynth renders the MIDI file to [wav_path]. *)
Definition render_wav (wav_path : string) (fluidsynth_cmd : list string)
    : prog unit :=
  io _ <- print ("▶ FluidSynth 명령 실행:" +:+ " "
                 +:+ String.concat " " fluidsynth_cmd);
  io _ <- try_except_CalledProcessError
            (subprocess_run fluidsynth_cmd)
            (fun rc cmd err =>
               io _ <- print "Error: FluidSynth 실행 중 오류가 발생했습니다.";
               io _ <- print (decode_utf8_ignore os err);
               throw (CalledProcessError rc cmd err));
  io wav_found <- isfile wav_path;
  if negb wav_found then throw (wav_missing wav_path) else
  print ("✓ WAV 파일 생성 완료: " +:+ wav_path).

(** Step 3: FFmpeg encodes [wav_path] to [output_mp3_path]. *)
Definition encode_mp3 (output_mp3_path : string) (ffmpeg_cmd : list string)
    : prog unit :=
  io _ <- print ("▶ FFmpeg 명령 실행:" +:+ " " +:+ String.concat " " ffmpeg_cmd);
  io _ <- try_except_CalledProcessError
            (subprocess_run ffmpeg_cmd)
            (fun rc cmd err =>
               io _ <- print "Error: FFmpeg 실행 중 오류가 발생했습니다.";
               io _ <- print (decode_utf8_ignore os err);
               throw (CalledProcessError rc cmd err));
  io mp3_found <- isfile output_mp3_path;
  if negb mp3_found then throw (mp3_missing output_mp3_path) else
  print ("✓ MP3 파일 생성 완료: " +:+ output_mp3_path).

(** Step 4: the intermediate WAV file is deleted unless it is kept. *)
Definition delete_wav (keep_wav : bool) (wav_path : string) : prog unit :=
  if negb keep_wav
  then try_except_Exception
         (io _ <- remove wav_path;
          print ("✓ 중간 WAV 파일 삭제 완료: " +:+ wav_path))
         (fun e => print ("⚠️ 중간 WAV 파일 삭제 중 오류: " +:+ exn_str os e))
  else pure tt.

Definition midi_to_mp3 (midi_path soundfont_path output_mp3_path : string)
    (sample_rate vbr_qscale : Z) (keep_wav : bool) : prog string :=
  io _ <- check_paths midi_path soundfont_path output_mp3_path;
  let wav_path := wav_path_of midi_path output_mp3_path in
  let fluidsynth_cmd :=
    fluidsynth_cmd_of wav_path sample_rate soundfont_path midi_path in
  io _ <- render_wav wav_path fluidsynth_cmd;
  let ffmpeg_cmd := ffmpeg_cmd_of wav_path vbr_qscale output_mp3_path in
  io _ <- encode_mp3 output_mp3_path ffmpeg_cmd;
  io _ <- delete_wav keep_wav wav_path;
  pure output_mp3_path.

(** Step 1 passes and leaves the world [w1]: both input files exist and
    the output folder is there already or has been created. *)
Definition ready_to_render (midi_path soundfont_path output_mp3_path : string)
    (w0 w1 : World) : Prop :=
  os_isfile os w0 midi_path = true /\
  os_isfile os w0 soundfont_path = true /\
  let mp3_dir := path_dirname os output_mp3_path in
  if bool_decide (mp3_dir <> "") && negb (os_isdir os w0 mp3_dir)
  then os_makedirs os w0 mp3_dir = (w1, None)
  else w1 = w0.

End Program.

(** A small operating system to run the function on. The world is the
    list of existing files; every directory exists. A [Scenario] fixes
    what the two programs do and whether files can be deleted. *)
Record Scenario : Type := mkScenario {
  synth_exit : Z;
  synth_writes : bool;
  encoder_exit : Z;
  encoder_writes : bool;
  remove_denied : bool
}.

(** Splits a string at the last occurrence of a character. *)
Fixpoint split_last (c : ascii) (s : string) : option (string * string) :=
  match s with
  | EmptyString => None
  | String a s' =>
      match split_last c s' with
      | Some (l, r) => Some (String a l, r)
      | None => if Ascii.eqb a c then Some (EmptyString, s') else None
      end
  end.

Definition simple_spawn (sc : Scenario) (w : list string) (cmd : list string)
    : list string * (exn + CompletedProcess) :=
  match cmd with
  | program :: _ =>
      if String.eqb program "fluidsynth" then
        ((if synth_writes sc then nth 3 cmd "" :: w else w),
         inr (mkCompleted (synth_exit sc) "" "fluidsynth: stopped"))
      else if String.eqb program "ffmpeg" then
        ((if encoder_writes sc then List.last cmd "" :: w else w),
         inr (mkCompleted (encoder_exit sc) "" "ffmpeg: stopped"))
      else (w, inl (OSError "[Errno 2] No such file or directory"))
  | [] => (w, inl (OSError "[Errno 2] No such file or directory"))
  end.

Definition simple_os (sc : Scenario) : OS (list string) :=
  {| os_isfile w path := bool_decide (path ∈ w);
     os_isdir w path := true;
     os_makedirs w path := (w, None);
     os_spawn := simple_spawn sc;
     os_remove w path :=
       if remove_denied sc
       then (w, Some (OSError "[Errno 13] Permission denied"))
       else (filter (fun p => p <> path) w, None);
     path_dirname p :=
       match split_last "/" p with Some (d, _) => d | None => "" end;
     path_basename p :=
       match split_last "/" p with Some (_, b) => b | None => p end;
     path_splitext p :=
       match split_last "." p with
       | Some (root, ext) => (root, String "." ext)
       | None => (p, "")
       end;
     path_join a b := if bool_decide (a = "") then b else a +:+ "/" +:+ b;
     decode_utf8_ignore err := err;
     exn_str e :=
       match e with
       | FileNotFoundError msg | OSError msg => msg
       | CalledProcessError _ _ _ => "Command returned non-zero exit status"
       end |}.

(** A second small operating system, for the failures [simple_os] does
    not show: no directory exists, and creating one or starting a
    program can be refused. *)
Definition refusing_os (makedirs_refused programs_installed : bool)
    : OS (list string) :=
  let base := simple_os (mkScenario 0 true 0 true false) in
  {| os_isfile := os_isfile base;
     os_isdir w path := false;
     os_makedirs w path :=
       if makedirs_refused
       then (w, Some (OSError "[Errno 13] Permission denied"))
       else (w, None);
     os_spawn w cmd :=
       if programs_installed then os_spawn base w cmd
       else (w, inl (FileNotFoundError "[Errno 2] No such file or directory"));
     os_remove := os_remove base;
     path_dirname := path_dirname base;
     path_basename := path_basename base;
     path_splitext := path_splitext base;
     path_join := path_join base;
     decode_utf8_ignore := decode_utf8_ignore base;
     exn_str := exn_str base |}.

End MidiToMp3.

(** ** Facts about the built-ins *)

Section Builtins.

Lemma slice_but_last_cons (a b : ascii) (s : string) :
  slice_but_last (String a (String b s)) = String a (slice_but_last (String b s)).
Proof. reflexivity. Qed.

Lemma index_last_cons (a b : ascii) (s : string) :
  index_last (String a (String b s)) = index_last (String b s).
Proof. reflexivity. Qed.

Lemma slice_but_last_snoc (s : string) (c : ascii) :
  slice_but_last (s +:+ String c "") = s.
Proof.
  induction s as [|a s IH]; [reflexivity|].
  destruct s as [|b s]; [reflexivity|].
  change (String a (slice_but_last (String b s +:+ String c "")) = String a (String b s)).
  by rewrite IH.
Qed.

Lemma index_last_snoc (s : string) (c : ascii) :
  index_last (s +:+ String c "") = inr c.
Proof.
  induction s as [|a s IH]; [reflexivity|].
  destruct s as [|b s]; [reflexivity|].
  change (index_last (String b s +:+ String c "") = inr c).
  apply IH.
Qed.

Lemma index_last_inv (s : string) (c : ascii) :
  index_last s = inr c -> s = slice_but_last s +:+ String c "".
Proof.
  induction s as [|a s IH]; [discriminate|].
  destruct s as [|b s].
  - intros [= ->]. reflexivity.
  - rewrite index_last_cons, slice_but_last_cons. intros H.
    change (String a (String b s) =
            String a (slice_but_last (String b s) +:+ String c "")).
    f_equal. apply IH, H.
Qed.

Lemma index_last_empty (s : string) (e : exn) :
  index_last s = inl e -> s = "" /\ e = IndexError.
Proof.
  induction s as [|a s IH]; [intros [= <-]; done|].
  destruct s as [|b s]; [discriminate|].
  rewrite index_last_cons. intros H. destruct (IH H) as [? _]. discriminate.
Qed.

Lemma str_digit (n : Z) :
  0 <= n <= 9 ->
  str n = String (digit_char n) "" /\
  is_digit (digit_char n) = true /\ digit_value (digit_char n) = n.
Proof.
  intros Hn.
  assert (Forall (fun d => str d = String (digit_char d) "" /\
                           is_digit (digit_char d) = true /\
                           digit_value (digit_char d) = d) (seqZ 0 10)) as Hall
    by (repeat constructor).
  rewrite Forall_forall in Hall. apply Hall, elem_of_seqZ. lia.
Qed.

Lemma for_each_invariant {E X S} (P : S -> Prop) (xs : list X)
    (body : X -> S -> Py.result E S) (st : S) :
  (forall x st, P st -> exists st', body x st = inr st' /\ P st') ->
  P st -> exists st', for_each xs body st = inr st' /\ P st'.
Proof.
  intros Hbody. revert st.
  induction xs as [|x xs IH]; intros st Hst; cbn [for_each].
  - exists st. done.
  - destruct (Hbody x st Hst) as (st1 & -> & Hst1). cbn [bind].
    apply IH, Hst1.
Qed.

End Builtins.

(** ** The single-note lookup [midi_note_to_key_number] *)

Section Lookup.

Lemma note_map_items_keys : note_map_items.*1 = note_names.
Proof. reflexivity. Qed.

Lemma note_names_NoDup : NoDup note_names.
Proof. apply (bool_decide_unpack (NoDup note_names)). vm_compute. exact I. Qed.

Lemma note_map_lookup (note_name : string) (offset : Z) :
  note_map !! note_name = Some offset <-> (note_name, offset) ∈ note_map_items.
Proof.
  unfold note_map. symmetry. apply elem_of_list_to_map.
  rewrite note_map_items_keys. apply note_names_NoDup.
Qed.

Lemma note_map_recognized (note_name : string) :
  is_Some (note_map !! note_name) <-> note_name ∈ note_names.
Proof.
  rewrite <- note_map_items_keys. unfold note_map. split.
  - intros [offset Hs].
    destruct (decide (note_name ∈ note_map_items.*1)) as [|Hn]; [done|].
    apply (not_elem_of_list_to_map (M := gmap string)) in Hn. congruence.
  - intros Hin.
    destruct (list_to_map note_map_items !! note_name) as [offset|] eqn:E; [by eexists|].
    apply (not_elem_of_list_to_map (M := gmap string)) in E. done.
Qed.

(** What the lookup does on a name split into everything but its last
    character and that last character. *)
Lemma midi_note_to_key_number_snoc (note_name : string) (c : ascii) :
  midi_note_to_key_number (note_name +:+ String c "") =
    (do octave <- int_of_char c;
     do offset <- match note_map !! note_name with
                  | Some v => ret v
                  | None => raise (KeyError note_name)
                  end;
     ret ((octave + 1) * 12 + offset - 21)).
Proof.
  unfold midi_note_to_key_number.
  rewrite slice_but_last_snoc, index_last_snoc. reflexivity.
Qed.

(** The four ways a call can end, with the exception each failure raises. *)
Lemma midi_note_to_key_number_cases (note : string) :
  (note = "" /\ midi_note_to_key_number note = inl IndexError) \/
  (exists note_name c,
     note = note_name +:+ String c "" /\ is_digit c = false /\
     midi_note_to_key_number note = inl ValueError) \/
  (exists note_name c,
     note = note_name +:+ String c "" /\ is_digit c = true /\
     note_map !! note_name = None /\
     midi_note_to_key_number note = inl (KeyError note_name)) \/
  (exists note_name c offset,
     note = note_name +:+ String c "" /\ is_digit c = true /\
     note_map !! note_name = Some offset /\
     midi_note_to_key_number note = inr ((digit_value c + 1) * 12 + offset - 21)).
Proof.
  destruct (index_last note) as [e|c] eqn:Hlast.
  - apply index_last_empty in Hlast as [-> ->]. left. done.
  - right. apply index_last_inv in Hlast.
    set (note_name := slice_but_last note) in *. rewrite Hlast.
    rewrite midi_note_to_key_number_snoc. unfold int_of_char.
    destruct (is_digit c) eqn:Hc.
    + destruct (note_map !! note_name) as [offset|] eqn:Hname.
      * right; right. exists note_name, c, offset. done.
      * right; left. exists note_name, c. done.
    + left. exists note_name, c. done.
Qed.

Lemma snoc_inj (s1 s2 : string) (c1 c2 : ascii) :
  s1 +:+ String c1 "" = s2 +:+ String c2 "" -> s1 = s2 /\ c1 = c2.
Proof.
  intros H. split.
  - rewrite <- (slice_but_last_snoc s1 c1), H. apply slice_but_last_snoc.
  - assert (index_last (s1 +:+ String c1 "") = inr c2) as H'
      by (rewrite H; apply index_last_snoc).
    rewrite index_last_snoc in H'. congruence.
Qed.

End Lookup.

(** C2. For each of the twelve note tokens, whose semitone offsets are
    C=0, C#=1, ..., B=11, followed by one octave digit 0 to 8, the lookup
    returns [(octave + 1) * 12 + offset - 21]. In particular A0 is key 0,
    C4 is key 39, A4 is key 48 and C8 is key 87. *)
Theorem midi_note_to_key_number_formula :
  (forall (note_name : string) (offset octave : Z),
     (note_name, offset) ∈
       [("C", 0); ("C#", 1); ("D", 2); ("D#", 3); ("E", 4); ("F", 5);
        ("F#", 6); ("G", 7); ("G#", 8); ("A", 9); ("A#", 10); ("B", 11)] ->
     0 <= octave <= 8 ->
     midi_note_to_key_number (note_name +:+ str octave)
       = inr ((octave + 1) * 12 + offset - 21)) /\
  midi_note_to_key_number "A0" = inr 0 /\
  midi_note_to_key_number "C4" = inr 39 /\
  midi_note_to_key_number "A4" = inr 48 /\
  midi_note_to_key_number "C8" = inr 87.
Proof.
  split; [|by vm_compute].
  intros note_name offset octave Hin Hoct.
  destruct (str_digit octave) as (-> & Hdig & Hval); [lia|].
  rewrite midi_note_to_key_number_snoc. unfold int_of_char.
  rewrite Hdig, Hval. cbn [bind ret].
  apply note_map_lookup in Hin. rewrite Hin. reflexivity.
Qed.

Lemma midi_note_to_key_number_formula_witness :
  ("F#", 6) ∈
    [("C", 0); ("C#", 1); ("D", 2); ("D#", 3); ("E", 4); ("F", 5);
     ("F#", 6); ("G", 7); ("G#", 8); ("A", 9); ("A#", 10); ("B", 11)] /\
  0 <= 4 <= 8 /\
  midi_note_to_key_number "F#4" = inr 45.
Proof.
  assert (("F#", 6) ∈
    [("C", 0); ("C#", 1); ("D", 2); ("D#", 3); ("E", 4); ("F", 5);
     ("F#", 6); ("G", 7); ("G#", 8); ("A", 9); ("A#", 10); ("B", 11)]) as Hin
    by (do 6 apply list_elem_of_further; apply list_elem_of_here).
  split; [exact Hin|]. split; [lia|].
  exact (proj1 midi_note_to_key_number_formula "F#" 6 4 Hin ltac:(lia)).
Defined.

(** C9. The lookup has no range check: whenever the text before the
    last character is a recognized token and the last character is a
    decimal digit, it returns [(octave + 1) * 12 + offset - 21], also
    outside 0..87: "C0" gives -9 and "C9" gives 87 + 12. *)
Theorem midi_note_to_key_number_no_range_check :
  (forall (note : string) (c : ascii) (offset : Z),
     index_last note = inr c ->
     is_digit c = true ->
     note_map !! slice_but_last note = Some offset ->
     midi_note_to_key_number note
       = inr ((digit_value c + 1) * 12 + offset - 21)) /\
  midi_note_to_key_number "C0" = inr (-9) /\
  midi_note_to_key_number "C9" = inr (87 + 12).
Proof.
  split; [|by vm_compute].
  intros note c offset Hlast Hc Hname.
  unfold midi_note_to_key_number, int_of_char.
  rewrite Hlast. cbn [bind]. rewrite Hc. cbn [bind ret].
  rewrite Hname. reflexivity.
Qed.

Lemma midi_note_to_key_number_no_range_check_witness :
  index_last "A#9" = inr "9"%char /\
  is_digit "9" = true /\
  note_map !! slice_but_last "A#9" = Some 10 /\
  midi_note_to_key_number "A#9" = inr 109.
Proof.
  assert (index_last "A#9" = inr "9"%char) as H1 by reflexivity.
  assert (is_digit "9" = true) as H2 by reflexivity.
  assert (note_map !! slice_but_last "A#9" = Some 10) as H3 by (vm_compute; reflexivity).
  split; [exact H1|]. split; [exact H2|]. split; [exact H3|].
  exact (proj1 midi_note_to_key_number_no_range_check "A#9" "9"%char 10 H1 H2 H3).
Defined.

(** ** The table generator [generate_all_piano_keys] *)

Section Generator.

Lemma retained_app (l1 l2 : list string) :
  retained (l1 ++ l2) = retained l1 ++ retained l2.
Proof. apply omap_app. Qed.

Lemma retained_cons (note : string) (l : list string) :
  retained (note :: l) = retained [note] ++ retained l.
Proof. apply (retained_app [note] l). Qed.

Lemma try_note_retained (octave : Z) (note_name : string) (acc : keys) :
  try_note octave note_name acc =
    inr (acc.1 ++ (retained [note_name +:+ str octave]).*1,
         acc.2 ++ (retained [note_name +:+ str octave]).*2).
Proof.
  unfold try_note, retained, retained_label. cbn [omap list_omap].
  destruct (midi_note_to_key_number _) as [e|label]; cbn [bind try_except ret].
  - cbn. rewrite !app_nil_r. by destruct acc.
  - destruct ((0 <=? label) && (label <=? 87)); cbn; [done|].
    rewrite !app_nil_r. by destruct acc.
Qed.

Lemma inner_loop_retained (octave : Z) (names : list string) (acc : keys) :
  for_each names (try_note octave) acc =
    inr (acc.1 ++ (retained ((fun n => n +:+ str octave) <$> names)).*1,
         acc.2 ++ (retained ((fun n => n +:+ str octave) <$> names)).*2).
Proof.
  revert acc. induction names as [|n names IH]; intros acc; cbn [for_each].
  - cbn. rewrite !app_nil_r. by destruct acc.
  - rewrite try_note_retained. cbn [bind]. rewrite IH. cbn [fst snd].
    rewrite fmap_cons, (retained_cons _ (_ <$> names)), !fmap_app, !app_assoc.
    done.
Qed.

Lemma outer_loop_retained (octs : list Z) (names : list string) (acc : keys) :
  for_each octs (fun octave => for_each names (try_note octave)) acc =
    inr (acc.1 ++ (retained (candidates octs names)).*1,
         acc.2 ++ (retained (candidates octs names)).*2).
Proof.
  revert acc. induction octs as [|o octs IH]; intros acc; cbn [for_each].
  - cbn. rewrite !app_nil_r. by destruct acc.
  - rewrite inner_loop_retained. cbn [bind]. rewrite IH. cbn [fst snd].
    unfold candidates. rewrite bind_cons, retained_app, !fmap_app, !app_assoc.
    done.
Qed.

(** The loops compute the two-step pipeline; in particular they return
    for every list of octaves and of note names. *)
Lemma generate_keys_retained (octs : list Z) (names : list string) :
  generate_keys octs names =
    inr ((retained (candidates octs names)).*1,
         (retained (candidates octs names)).*2).
Proof. unfold generate_keys. by rewrite outer_loop_retained. Qed.

Lemma retained_sound (cands : list string) (note : string) (label : Z) :
  (note, label) ∈ retained cands ->
  note ∈ cands /\ midi_note_to_key_number note = inr label /\ 0 <= label <= 87.
Proof.
  unfold retained. rewrite list_elem_of_omap. intros (x & Hx & Hret).
  unfold retained_label in Hret.
  destruct (midi_note_to_key_number x) as [e|l] eqn:Hmidi; [done|].
  destruct ((0 <=? l) && (l <=? 87)) eqn:Hrange; [|done].
  cbn in Hret. injection Hret as <- <-. repeat split; [done|done|lia|lia].
Qed.

(** The whole table, evaluated. *)
Lemma generate_all_piano_keys_labels :
  exists notes : list string,
    generate_all_piano_keys = inr (notes, seqZ 0 88) /\
    length notes = 88%nat /\ NoDup notes.
Proof.
  eexists. split; [vm_compute; reflexivity|]. split; [reflexivity|].
  match goal with |- NoDup ?l => apply (bool_decide_unpack (NoDup l)) end.
  vm_compute. exact I.
Qed.

End Generator.

(** C1. The generator returns 88 notes and 88 labels, hence 88 pairs, and
    the labels are exactly 0..87: none twice, none missing. *)
Theorem generate_all_piano_keys_88 :
  exists (notes : list string) (labels : list Z),
    generate_all_piano_keys = inr (notes, labels) /\
    length notes = 88%nat /\ length labels = 88%nat /\
    length (zip notes labels) = 88%nat /\
    NoDup labels /\
    (forall l : Z, l ∈ labels <-> 0 <= l <= 87).
Proof.
  destruct generate_all_piano_keys_labels as (notes & Hgen & Hlen & _).
  exists notes, (seqZ 0 88). split; [exact Hgen|].
  split; [exact Hlen|]. split; [reflexivity|].
  split; [rewrite length_zip, Hlen; reflexivity|].
  split; [apply NoDup_seqZ|].
  intros l. rewrite elem_of_seqZ. lia.
Qed.

(** C5. A name the lookup accepts but whose label is outside 0..87 is
    passed over: its loop iteration returns the accumulators unchanged
    without raising, the generator returns, and neither the name nor the
    label appears in what it returns. *)
Theorem out_of_range_is_skipped (octave : Z) (note_name : string) (label : Z) :
  midi_note_to_key_number (note_name +:+ str octave) = inr label ->
  ~ (0 <= label <= 87) ->
  (forall acc : keys, try_note octave note_name acc = inr acc) /\
  exists (notes : list string) (labels : list Z),
    generate_all_piano_keys = inr (notes, labels) /\
    ((note_name +:+ str octave) ∉ notes) /\
    (label ∉ labels) /\
    ((note_name +:+ str octave, label) ∉ zip notes labels).
Proof.
  intros Hmidi Hout. split.
  - intros acc. unfold try_note. rewrite Hmidi. cbn [bind try_except].
    destruct ((0 <=? label) && (label <=? 87)) eqn:Hrange; [lia|done].
  - eexists _, _. split; [apply generate_keys_retained|].
    set (kept := retained (candidates octaves note_names)).
    assert (label ∉ kept.*2) as Hlabel.
    { intros ([n l] & -> & Hin)%list_elem_of_fmap.
      apply retained_sound in Hin as (_ & _ & Hrange). done. }
    split; [|split; [done|]].
    + intros ([n l] & Heq & Hin)%list_elem_of_fmap. cbn in Heq. subst n.
      apply retained_sound in Hin as (_ & Hmidi' & Hrange).
      rewrite Hmidi in Hmidi'. injection Hmidi' as ->. done.
    + intros Hin%elem_of_zip_r. done.
Qed.

Lemma out_of_range_is_skipped_witness :
  midi_note_to_key_number ("C#" +:+ str 8) = inr 88 /\
  ~ (0 <= 88 <= 87) /\
  try_note 8 "C#" (["A0"], [0]) = inr (["A0"], [0]).
Proof.
  assert (midi_note_to_key_number ("C#" +:+ str 8) = inr 88) as H1
    by (vm_compute; reflexivity).
  assert (~ (0 <= 88 <= 87)) as H2 by lia.
  split; [exact H1|]. split; [exact H2|].
  exact (proj1 (out_of_range_is_skipped 8 "C#" 88 H1 H2) (["A0"], [0])).
Defined.

(** C6. The returned notes follow the iteration order, octave first and
    note-token index second, and in that order the labels are exactly
    0, 1, ..., 87: the key at octave [o] with token index [i] carries
    the label [(o + 1) * 12 + i - 21]. *)
Theorem generate_all_piano_keys_ascending :
  exists ks : list (Z * nat),
    generate_all_piano_keys = inr (note_at <$> ks, seqZ 0 88) /\
    StronglySorted key_before ks /\
    Forall (fun k => k.1 ∈ octaves /\ is_Some (note_names !! k.2)) ks /\
    seqZ 0 88 = (fun k => (k.1 + 1) * 12 + Z.of_nat k.2 - 21) <$> ks /\
    StronglySorted Z.lt (seqZ 0 88).
Proof.
  exists ((fun i => (Z.of_nat ((i + 9) / 12), ((i + 9) mod 12)%nat)) <$> seq 0 88).
  split; [vm_compute; reflexivity|].
  split.
  { match goal with |- ?P => apply (bool_decide_unpack P) end.
    vm_compute. exact I. }
  split.
  { match goal with |- ?P => apply (bool_decide_unpack P) end.
    vm_compute. exact I. }
  split; [vm_compute; reflexivity|].
  match goal with |- ?P => apply (bool_decide_unpack P) end.
  vm_compute. exact I.
Qed.

(** ** The data frame and the two dictionaries *)

Section Dictionaries.

Context `{Countable K} {V : Type}.

Lemma fold_insert_lookup (l : list (K * V)) (m : gmap K V) (k : K) (v : V) :
  NoDup l.*1 ->
  fold_left (fun m kv => <[kv.1 := kv.2]> m) l m !! k = Some v <->
  (k, v) ∈ l \/ ((k ∉ l.*1) /\ m !! k = Some v).
Proof.
  revert m. induction l as [|[k0 v0] l IH]; intros m Hnd.
  - cbn. split.
    + intros Hm. right. split; [apply not_elem_of_nil | exact Hm].
    + intros [Hin | [_ Hm]]; [by apply elem_of_nil in Hin | exact Hm].
  - cbn [fold_left fst snd]. rewrite fmap_cons in Hnd.
    apply NoDup_cons in Hnd as [Hk0 Hnd]. cbn [fst] in Hk0.
    rewrite (IH _ Hnd), fmap_cons, elem_of_cons, not_elem_of_cons. cbn [fst].
    destruct (decide (k = k0)) as [->|Hne].
    + rewrite lookup_insert_eq. split.
      * intros [Hin | [_ [= ->]]]; [|by left; left].
        exfalso. apply Hk0. apply list_elem_of_fmap. by exists (k0, v).
      * intros [[[= ->] | Hin] | [[? _] _]]; [by right| |done].
        exfalso. apply Hk0. apply list_elem_of_fmap. by exists (k0, v).
    + rewrite lookup_insert_ne by done. split.
      * intros [Hin | [Hnot Hm]]; [by left; right | by right].
      * intros [[[= -> ->] | Hin] | [[_ Hnot] Hm]]; [done | by left | by right].
Qed.

(** With distinct keys, [dict(zip(ks, vs))] holds exactly the zipped pairs. *)
Lemma dict_zip_lookup (ks : list K) (vs : list V) (k : K) (v : V) :
  NoDup ks -> length ks = length vs ->
  dict_zip ks vs !! k = Some v <-> (k, v) ∈ zip ks vs.
Proof.
  intros Hnd Hlen. unfold dict_zip.
  rewrite fold_insert_lookup by (rewrite fst_zip by lia; done).
  rewrite lookup_empty. split; [|by left].
  intros [Hin | [_ [=]]]. exact Hin.
Qed.

End Dictionaries.

Lemma elem_of_zip_swap {A B} (l : list A) (k : list B) (a : A) (b : B) :
  (a, b) ∈ zip l k <-> (b, a) ∈ zip k l.
Proof.
  rewrite !list_elem_of_lookup. setoid_rewrite lookup_zip_with_Some.
  split; intros (i & x & y & [= -> ->] & Hx & Hy); exists i; by eexists _, _.
Qed.

(** The data frame, evaluated: its [Note] and [Label] columns are the two
    lists of the generator. *)
Lemma create_labeling_dataframe_columns :
  exists df : DataFrame,
    create_labeling_dataframe = inr df /\
    generate_all_piano_keys = inr (Note df, Label df) /\
    Label df = seqZ 0 88 /\ length (Note df) = 88%nat /\ NoDup (Note df).
Proof.
  eexists. split; [vm_compute; reflexivity|].
  split; [vm_compute; reflexivity|]. split; [reflexivity|].
  split; [reflexivity|].
  match goal with |- ?P => apply (bool_decide_unpack P) end.
  vm_compute. exact I.
Qed.

(** C3. The 88 generated names are pairwise distinct, every label of
    0..87 is paired with exactly one of them, and looking a label up in
    [label_to_note] and the result in [note_to_label] gives the label
    back (and the other way round for every generated name). *)
Theorem note_label_bijection :
  exists df : DataFrame,
    create_labeling_dataframe = inr df /\
    generate_all_piano_keys = inr (Note df, Label df) /\
    length (Note df) = 88%nat /\ NoDup (Note df) /\
    (forall l : Z, 0 <= l <= 87 ->
       exists note : string,
         (note, l) ∈ zip (Note df) (Label df) /\
         (forall note', (note', l) ∈ zip (Note df) (Label df) -> note' = note) /\
         label_to_note df !! l = Some note /\
         note_to_label df !! note = Some l) /\
    (forall note : string, note ∈ Note df ->
       exists l : Z,
         0 <= l <= 87 /\
         note_to_label df !! note = Some l /\
         label_to_note df !! l = Some note).
Proof.
  destruct create_labeling_dataframe_columns
    as (df & Hdf & Hgen & Hlabels & Hlen & Hnd).
  exists df. split; [exact Hdf|]. split; [exact Hgen|].
  split; [exact Hlen|]. split; [exact Hnd|].
  assert (length (Label df) = 88%nat) as Hlen' by (rewrite Hlabels; reflexivity).
  assert (NoDup (Label df)) as Hnd' by (rewrite Hlabels; apply NoDup_seqZ).
  assert (forall note l, note_to_label df !! note = Some l <->
                         (note, l) ∈ zip (Note df) (Label df)) as Hfwd.
  { intros. apply dict_zip_lookup; [exact Hnd|]. rewrite Hlen, Hlen'. reflexivity. }
  assert (forall note l, label_to_note df !! l = Some note <->
                         (note, l) ∈ zip (Note df) (Label df)) as Hbwd.
  { intros. rewrite elem_of_zip_swap. apply dict_zip_lookup; [exact Hnd'|]. rewrite Hlen, Hlen'. reflexivity.  }
  split.
  - intros l Hl.
    assert (l ∈ Label df) as Hin. { rewrite Hlabels, elem_of_seqZ. clear -Hl. lia. }
    apply list_elem_of_lookup in Hin as [i Hi].
    destruct (lookup_lt_is_Some_2 (Note df) i) as [note Hnote].
    { apply lookup_lt_Some in Hi. rewrite Hlen. rewrite Hlen' in Hi. exact Hi. }
    assert ((note, l) ∈ zip (Note df) (Label df)) as Hpair.
    { apply list_elem_of_lookup. exists i. apply lookup_zip_with_Some.
      exists note, l. split; [reflexivity|]. split; assumption. }
    exists note. split; [exact Hpair|]. split.
    + intros note' Hpair'. apply Hbwd in Hpair, Hpair'.
      rewrite Hpair in Hpair'. injection Hpair' as ->. reflexivity.
    + split; [apply Hbwd, Hpair | apply Hfwd, Hpair].
  - intros note Hin.
    apply list_elem_of_lookup in Hin as [i Hi].
    destruct (lookup_lt_is_Some_2 (Label df) i) as [l Hl].
    { apply lookup_lt_Some in Hi. rewrite Hlen'. rewrite Hlen in Hi. exact Hi. }
    assert ((note, l) ∈ zip (Note df) (Label df)) as Hpair.
    { apply list_elem_of_lookup. exists i. apply lookup_zip_with_Some.
      exists note, l. split; [reflexivity|]. split; assumption. }
    exists l. split.
    + apply list_elem_of_lookup_2 in Hl. rewrite Hlabels, elem_of_seqZ in Hl.
      clear -Hl. lia.
    + split; [apply Hfwd, Hpair | apply Hbwd, Hpair].
Qed.

Lemma dictionaries_at_middle_c :
  exists df : DataFrame,
    create_labeling_dataframe = inr df /\
    label_to_note df !! 39 = Some "C4" /\ note_to_label df !! "C4" = Some 39 /\
    size (note_to_label df) = 88%nat /\ size (label_to_note df) = 88%nat.
Proof.
  eexists. split; [vm_compute; reflexivity|].
  repeat split; vm_compute; reflexivity.
Qed.

(** C7. Calling a key black when its note token is one of C#, D#, F#, G#
    and A#, and white otherwise, the 88 generated keys are 36 black and
    52 white. *)
Theorem black_white_counts :
  exists df : DataFrame,
    create_labeling_dataframe = inr df /\
    Note_Name df = slice_but_last <$> Note df /\
    length (Key_Type df) = 88%nat /\
    value_count (Key_Type df) "Black" = 36%nat /\
    value_count (Key_Type df) "White" = 52%nat.
Proof.
  eexists. split; [vm_compute; reflexivity|].
  repeat split; vm_compute; reflexivity.
Qed.


(** ** The conversion pipeline [midi_to_mp3] *)

Section Pipeline.

Import MidiToMp3.

Context {World : Type} (os : OS World).

(** Runs the program text as far as the known facts allow. *)
Ltac run_prog :=
  cbv beta iota zeta delta [and_then pure throw print isfile isdir negb];
  cbn [world printed calls fst snd].

Lemma and_then_raise {A B} (m : prog A) (k : A -> prog B)
    (s s' : state World) (e : exn) :
  m s = (inl e, s') -> and_then m k s = (inl e, s').
Proof. intros Hm. unfold and_then. by rewrite Hm. Qed.

Lemma and_then_return {A B} (m : prog A) (k : A -> prog B)
    (s s' : state World) (a : A) :
  m s = (inr a, s') -> and_then m k s = k a s'.
Proof. intros Hm. unfold and_then. by rewrite Hm. Qed.



Lemma check_paths_ready (midi_path soundfont_path output_mp3_path : string)
    (s : state World) (w1 : World) :
  ready_to_render os midi_path soundfont_path output_mp3_path (world s) w1 ->
  check_paths os midi_path soundfont_path output_mp3_path s
    = (inr tt, mkState w1 (printed s) (calls s)).
Proof.
  intros (Hmidi & Hsf & Hdir). unfold check_paths. run_prog.
  rewrite Hmidi. run_prog. rewrite Hsf. run_prog. cbv zeta in Hdir.
  destruct (bool_decide (path_dirname os output_mp3_path <> ""));
    cbn [andb] in Hdir; run_prog.
  - destruct (os_isdir os (world s) _); cbn [negb] in Hdir; run_prog.
    + subst w1. by destruct s.
    + unfold makedirs, lift_os. rewrite Hdir. reflexivity.
  - subst w1. by destruct s.
Qed.

(** One [subprocess.run] with its handler and the check that follows it,
    as steps 2 and 3 both have it. *)
Lemma render_wav_outcome (wav_path : string) (cmd : list string)
    (s : state World) (w2 : World) (finished : CompletedProcess) :
  os_spawn os (world s) cmd = (w2, inr finished) ->
  exists lines : list string,
    render_wav os wav_path cmd s =
      (if returncode finished =? 0
       then if os_isfile os w2 wav_path then inr tt else inl (wav_missing wav_path)
       else inl (CalledProcessError (returncode finished) cmd (stderr finished)),
       mkState w2 (printed s ++ lines) (calls s ++ [cmd])) /\
    (returncode finished <> 0 ->
     decode_utf8_ignore os (stderr finished) ∈ lines).
Proof.
  intros Hspawn.
  unfold render_wav, try_except_CalledProcessError, subprocess_run. run_prog.
  rewrite Hspawn.
  destruct (returncode finished =? 0) eqn:Hrc; run_prog.
  - destruct (os_isfile os w2 wav_path); run_prog.
    + eexists [_; _]. rewrite <- !app_assoc. split; [reflexivity|].
      intros Hne. apply Z.eqb_eq in Hrc. done.
    + eexists [_]. split; [reflexivity|].
      intros Hne. apply Z.eqb_eq in Hrc. done.
  - eexists [_; _; _]. rewrite <- !app_assoc. split; [reflexivity|].
    intros _. set_solver.
Qed.

Lemma encode_mp3_outcome (output_mp3_path : string) (cmd : list string)
    (s : state World) (w3 : World) (finished : CompletedProcess) :
  os_spawn os (world s) cmd = (w3, inr finished) ->
  exists lines : list string,
    encode_mp3 os output_mp3_path cmd s =
      (if returncode finished =? 0
       then if os_isfile os w3 output_mp3_path then inr tt
            else inl (mp3_missing output_mp3_path)
       else inl (CalledProcessError (returncode finished) cmd (stderr finished)),
       mkState w3 (printed s ++ lines) (calls s ++ [cmd])) /\
    (returncode finished <> 0 ->
     decode_utf8_ignore os (stderr finished) ∈ lines).
Proof.
  intros Hspawn.
  unfold encode_mp3, try_except_CalledProcessError, subprocess_run. run_prog.
  rewrite Hspawn.
  destruct (returncode finished =? 0) eqn:Hrc; run_prog.
  - destruct (os_isfile os w3 output_mp3_path); run_prog.
    + eexists [_; _]. rewrite <- !app_assoc. split; [reflexivity|].
      intros Hne. apply Z.eqb_eq in Hrc. done.
    + eexists [_]. split; [reflexivity|].
      intros Hne. apply Z.eqb_eq in Hrc. done.
  - eexists [_; _; _]. rewrite <- !app_assoc. split; [reflexivity|].
    intros _. set_solver.
Qed.

(** Step 4 never raises and starts no program, whatever [os.remove] does. *)
Lemma delete_wav_returns (keep_wav : bool) (wav_path : string) (s : state World) :
  exists s' : state World,
    delete_wav os keep_wav wav_path s = (inr tt, s') /\
    calls s' = calls s /\
    (keep_wav = true -> s' = s) /\
    (keep_wav = false ->
     world s' = (os_remove os (world s) wav_path).1 /\
     forall e, (os_remove os (world s) wav_path).2 = Some e ->
       printed s' = printed s ++
         ["⚠️ 중간 WAV 파일 삭제 중 오류: " +:+ exn_str os e]).
Proof.
  unfold delete_wav. destruct keep_wav; cbn [negb].
  - exists s. unfold pure. done.
  - unfold try_except_Exception, remove, lift_os. run_prog.
    destruct (os_remove os (world s) wav_path) as [w4 [e|]]; run_prog;
      eexists; (split; [reflexivity|]); run_prog;
      (split; [reflexivity|]); (split; [discriminate|]); intros _;
      (split; [reflexivity|]).
    + intros e' [= <-]. reflexivity.
    + discriminate.
Qed.


(** C10. With [keep_wav=False], once both programs have exited with 0
    and both output files exist, the call returns [output_mp3_path]
    whatever [os.remove] does: an exception it raises is caught, a
    warning with its text is printed, and nothing is raised. *)
Theorem midi_to_mp3_ignores_remove_failure
    (midi_path soundfont_path output_mp3_path : string)
    (sample_rate vbr_qscale : Z) (s : state World)
    (w1 w2 w3 : World) (synth_done encode_done : CompletedProcess) :
  ready_to_render os midi_path soundfont_path output_mp3_path (world s) w1 ->
  os_spawn os w1
    (fluidsynth_cmd_of (wav_path_of os midi_path output_mp3_path)
       sample_rate soundfont_path midi_path) = (w2, inr synth_done) ->
  returncode synth_done = 0 ->
  os_isfile os w2 (wav_path_of os midi_path output_mp3_path) = true ->
  os_spawn os w2
    (ffmpeg_cmd_of (wav_path_of os midi_path output_mp3_path)
       vbr_qscale output_mp3_path) = (w3, inr encode_done) ->
  returncode encode_done = 0 ->
  os_isfile os w3 output_mp3_path = true ->
  let removal := os_remove os w3 (wav_path_of os midi_path output_mp3_path) in
  let outcome :=
    midi_to_mp3 os midi_path soundfont_path output_mp3_path
      sample_rate vbr_qscale false s in
  outcome.1 = inr output_mp3_path /\
  world outcome.2 = removal.1 /\
  (forall e : exn, removal.2 = Some e ->
     last (printed outcome.2)
       = Some ("⚠️ 중간 WAV 파일 삭제 중 오류: " +:+ exn_str os e)).
Proof.
  intros Hready Hsynth Hrc Hwav Hencode Hrc2 Hmp3 removal outcome.
  subst removal outcome. unfold midi_to_mp3.
  set (wav_path := wav_path_of os midi_path output_mp3_path) in *.
  set (synth := fluidsynth_cmd_of wav_path sample_rate soundfont_path midi_path) in *.
  set (encode := ffmpeg_cmd_of wav_path vbr_qscale output_mp3_path) in *.
  rewrite (and_then_return _ _ _ _ _ (check_paths_ready _ _ _ _ w1 Hready)).
  destruct (render_wav_outcome wav_path synth
              (mkState w1 (printed s) (calls s)) w2 synth_done Hsynth)
    as (lines & Hrender & _).
  cbn [world printed calls] in Hrender.
  rewrite Hrc, Hwav in Hrender. rewrite (and_then_return _ _ _ _ _ Hrender).
  destruct (encode_mp3_outcome output_mp3_path encode
              (mkState w2 (printed s ++ lines) (calls s ++ [synth]))
              w3 encode_done Hencode)
    as (lines' & Hencoded & _).
  cbn [world printed calls] in Hencoded.
  rewrite Hrc2, Hmp3 in Hencoded. rewrite (and_then_return _ _ _ _ _ Hencoded).
  destruct (delete_wav_returns false wav_path
              (mkState w3 ((printed s ++ lines) ++ lines')
                 ((calls s ++ [synth]) ++ [encode])))
    as (s' & Hdelete & _ & _ & Hremoved).
  destruct (Hremoved eq_refl) as [Hworld Hwarned].
  rewrite (and_then_return _ _ _ _ _ Hdelete). unfold pure. cbn [fst snd].
  split; [reflexivity|]. split; [exact Hworld|].
  intros e He. cbn [world printed] in Hwarned. rewrite (Hwarned e He).
  apply last_snoc.
Qed.

End Pipeline.

Section PipelineRuns.

Import MidiToMp3.


Lemma midi_to_mp3_ignores_remove_failure_witness :
  let os := simple_os (mkScenario 0 true 0 true true) in
  let outcome :=
    midi_to_mp3 os "in/song.mid" "sf/piano.sf2" "out/song.mp3" 44100 2 false
      (mkState ["in/song.mid"; "sf/piano.sf2"] [] []) in
  os_remove os ["out/song.mp3"; "out/song.wav"; "in/song.mid"; "sf/piano.sf2"]
      "out/song.wav"
    = (["out/song.mp3"; "out/song.wav"; "in/song.mid"; "sf/piano.sf2"],
       Some (OSError "[Errno 13] Permission denied")) /\
  outcome.1 = inr "out/song.mp3".
Proof.
  cbv zeta. split; [reflexivity|].
  refine (proj1
    (midi_to_mp3_ignores_remove_failure
       (simple_os (mkScenario 0 true 0 true true))
       "in/song.mid" "sf/piano.sf2" "out/song.mp3" 44100 2
       (mkState ["in/song.mid"; "sf/piano.sf2"] [] [])
       ["in/song.mid"; "sf/piano.sf2"]
       ["out/song.wav"; "in/song.mid"; "sf/piano.sf2"]
       ["out/song.mp3"; "out/song.wav"; "in/song.mid"; "sf/piano.sf2"]
       (mkCompleted 0 "" "fluidsynth: stopped")
       (mkCompleted 0 "" "ffmpeg: stopped") _ _ _ _ _ _ _)).
  all: try reflexivity. repeat split.
Defined.

End PipelineRuns.

(** ** Further properties of [labeling_to_numbers.py] *)

Section LookupArithmetic.

Lemma note_map_index (note_name : string) (offset : Z) :
  note_map !! note_name = Some offset ->
  0 <= offset <= 11 /\ note_names !! Z.to_nat offset = Some note_name.
Proof.
  intros Hin%note_map_lookup. unfold note_map_items in Hin.
  repeat (apply elem_of_cons in Hin as [[= -> ->] | Hin];
          [split; [lia | reflexivity] |]).
  by apply elem_of_nil in Hin.
Qed.

Lemma note_map_inj (n1 n2 : string) (offset : Z) :
  note_map !! n1 = Some offset -> note_map !! n2 = Some offset -> n1 = n2.
Proof.
  intros [_ H1]%note_map_index [_ H2]%note_map_index. congruence.
Qed.

Lemma digit_value_range (c : ascii) :
  is_digit c = true ->
  0 <= digit_value c <= 9 /\ digit_char (digit_value c) = c.
Proof.
  unfold is_digit, digit_value, digit_char. cbv zeta.
  intros [H1%Z.leb_le H2%Z.leb_le]%andb_true_iff. split; [lia|].
  replace (Z.to_N (48 + (Z.of_N (N_of_ascii c) - 48))) with (N_of_ascii c) by lia.
  apply ascii_N_embedding.
Qed.

(** A lookup that returns has read a token of the table and a digit. *)
Lemma midi_note_to_key_number_inv (note : string) (label : Z) :
  midi_note_to_key_number note = inr label ->
  exists note_name c offset,
    note = note_name +:+ String c "" /\ is_digit c = true /\
    note_map !! note_name = Some offset /\
    label = (digit_value c + 1) * 12 + offset - 21.
Proof.
  intros Hmidi.
  destruct (midi_note_to_key_number_cases note)
    as [[_ H] | [(n & c & _ & _ & H) | [(n & c & _ & _ & _ & H)
        | (n & c & offset & Hnote & Hc & Hname & H)]]];
    rewrite H in Hmidi; try discriminate.
  injection Hmidi as <-. by exists n, c, offset.
Qed.

End LookupArithmetic.

(** X2. Labels follow pitch: of two names the lookup accepts, the one
    with the lower octave digit, or with the same digit and the earlier
    token of the table, has the smaller label. *)
Theorem label_order_is_pitch_order
    (n1 n2 : string) (c1 c2 : ascii) (o1 o2 l1 l2 : Z) :
  note_map !! n1 = Some o1 -> note_map !! n2 = Some o2 ->
  midi_note_to_key_number (n1 +:+ String c1 "") = inr l1 ->
  midi_note_to_key_number (n2 +:+ String c2 "") = inr l2 ->
  l1 < l2 <->
  digit_value c1 < digit_value c2 \/
  (digit_value c1 = digit_value c2 /\ o1 < o2).
Proof.
  intros Hn1 Hn2 H1 H2.
  apply midi_note_to_key_number_inv in H1 as (n1' & c1' & o1' & Heq1 & _ & Hn1' & ->).
  apply midi_note_to_key_number_inv in H2 as (n2' & c2' & o2' & Heq2 & _ & Hn2' & ->).
  apply snoc_inj in Heq1 as [<- <-]. apply snoc_inj in Heq2 as [<- <-].
  rewrite Hn1 in Hn1'. rewrite Hn2 in Hn2'.
  injection Hn1' as <-. injection Hn2' as <-.
  destruct (note_map_index _ _ Hn1) as [Ho1 _].
  destruct (note_map_index _ _ Hn2) as [Ho2 _].
  lia.
Qed.

Lemma label_order_is_pitch_order_witness :
  note_map !! "B" = Some 11 /\ note_map !! "C" = Some 0 /\
  midi_note_to_key_number "B1" = inr 14 /\
  midi_note_to_key_number "C2" = inr 15 /\
  (14 < 15 <->
   digit_value "1" < digit_value "2" \/
   (digit_value "1" = digit_value "2" /\ 11 < 0)).
Proof.
  assert (note_map !! "B" = Some 11) as Hb by (vm_compute; reflexivity).
  assert (note_map !! "C" = Some 0) as Hc by (vm_compute; reflexivity).
  assert (midi_note_to_key_number ("B" +:+ String "1" "") = inr 14) as H1
    by (vm_compute; reflexivity).
  assert (midi_note_to_key_number ("C" +:+ String "2" "") = inr 15) as H2
    by (vm_compute; reflexivity).
  split; [exact Hb|]. split; [exact Hc|]. split; [exact H1|]. split; [exact H2|].
  exact (label_order_is_pitch_order "B" "C" "1" "2" 11 0 14 15 Hb Hc H1 H2).
Defined.

(** X3. Which names the generator keeps: for a token of the table and an
    octave 0..9 the loop body appends the name and its label exactly
    when the key lies between A0 and C8 (octave 0 from A on, octaves 1
    to 7, octave 8 for C only) and otherwise leaves the lists alone. *)
Theorem try_note_keeps_piano_range
    (octave : Z) (note_name : string) (offset : Z) (acc : keys) :
  note_map !! note_name = Some offset ->
  0 <= octave <= 9 ->
  try_note octave note_name acc =
    inr (if bool_decide ((octave = 0 /\ 9 <= offset) \/ 1 <= octave <= 7 \/
                         (octave = 8 /\ offset = 0))
         then (acc.1 ++ [note_name +:+ str octave],
               acc.2 ++ [(octave + 1) * 12 + offset - 21])
         else acc).
Proof.
  intros Hname Hoct. destruct (note_map_index _ _ Hname) as [Hoff _].
  unfold try_note.
  destruct (str_digit octave Hoct) as (-> & Hdig & Hval).
  rewrite midi_note_to_key_number_snoc. unfold int_of_char.
  rewrite Hdig, Hval. cbn [bind ret]. rewrite Hname. cbn [bind ret try_except].
  destruct ((0 <=? _) && (_ <=? 87)) eqn:Hrange; cbn [try_except ret].
  - rewrite bool_decide_eq_true_2 by lia. reflexivity.
  - rewrite bool_decide_eq_false_2; [reflexivity|].
    apply andb_false_iff in Hrange as [H%Z.leb_gt | H%Z.leb_gt]; lia.
Qed.

Lemma try_note_keeps_piano_range_witness :
  note_map !! "A" = Some 9 /\ 0 <= 0 <= 9 /\
  try_note 0 "A" ([], []) = inr (["A0"], [0]).
Proof.
  assert (note_map !! "A" = Some 9) as H1 by (vm_compute; reflexivity).
  assert (0 <= 0 <= 9) as H2 by lia.
  split; [exact H1|]. split; [exact H2|].
  exact (try_note_keeps_piano_range 0 "A" 9 ([], []) H1 H2).
Defined.

Section GeneratorInGeneral.

Lemma retained_complete (cands : list string) (note : string) (label : Z) :
  note ∈ cands ->
  midi_note_to_key_number note = inr label -> 0 <= label <= 87 ->
  (note, label) ∈ retained cands.
Proof.
  intros Hin Hmidi Hrange. unfold retained. apply list_elem_of_omap.
  exists note. split; [exact Hin|]. unfold retained_label. rewrite Hmidi.
  destruct ((0 <=? label) && (label <=? 87)) eqn:Hb; [reflexivity|].
  apply andb_false_iff in Hb as [H%Z.leb_gt | H%Z.leb_gt]; lia.
Qed.

Lemma elem_of_candidates (octs : list Z) (names : list string) (note : string) :
  note ∈ candidates octs names <->
  exists octave note_name,
    octave ∈ octs /\ note_name ∈ names /\ note = note_name +:+ str octave.
Proof.
  unfold candidates. rewrite list_elem_of_bind. split.
  - intros (octave & (note_name & -> & Hname)%list_elem_of_fmap & Hoct).
    by exists octave, note_name.
  - intros (octave & note_name & Hoct & Hname & ->).
    exists octave. split; [|exact Hoct].
    apply list_elem_of_fmap. by exists note_name.
Qed.

End GeneratorInGeneral.

(** X4. The two loops for any list of octaves and any list of note names:
    they never raise, return two lists of the same length, and pair a
    name with a label exactly when the name is some listed token
    followed by some listed octave, the lookup returns that label for
    it, and the label is in 0..87. Names the lookup rejects are left
    out silently. *)
Theorem generate_keys_sound_and_complete (octs : list Z) (names : list string) :
  exists (notes : list string) (labels : list Z),
    generate_keys octs names = inr (notes, labels) /\
    length notes = length labels /\
    (forall (note : string) (label : Z),
       (note, label) ∈ zip notes labels <->
       (exists octave note_name,
          octave ∈ octs /\ note_name ∈ names /\
          note = note_name +:+ str octave) /\
       midi_note_to_key_number note = inr label /\
       0 <= label <= 87).
Proof.
  eexists _, _. split; [apply generate_keys_retained|].
  split; [by rewrite !length_fmap|].
  intros note label. rewrite zip_fst_snd, <- elem_of_candidates. split.
  - intros Hin. by apply retained_sound in Hin.
  - intros (Hin & Hmidi & Hrange). by apply retained_complete.
Qed.

(** X5. The rows of the data frame agree with each other: there are 88 of
    them, [Label] counts 0..87 and [MIDI_Number] 21..108, every [Note]
    is its [Note_Name] followed by its [Octave], every name is a token
    of the table, and the MIDI number is
    [(Octave + 1) * 12 + note_map[Note_Name]]. *)
Theorem create_labeling_dataframe_rows :
  exists df : DataFrame,
    create_labeling_dataframe = inr df /\
    length (Note df) = 88%nat /\
    Label df = seqZ 0 88 /\
    MIDI_Number df = seqZ 21 88 /\
    length (Octave df) = 88%nat /\
    Note df = zip_with (fun name octave => name +:+ str octave)
                (Note_Name df) (Octave df) /\
    Forall (fun name => name ∈ note_names) (Note_Name df) /\
    MIDI_Number df =
      zip_with (fun name octave => (octave + 1) * 12 + default 0 (note_map !! name))
        (Note_Name df) (Octave df).
Proof.
  eexists. split; [vm_compute; reflexivity|].
  split; [reflexivity|]. split; [reflexivity|].
  split; [vm_compute; reflexivity|]. split; [reflexivity|].
  split; [vm_compute; reflexivity|].
  split; [|vm_compute; reflexivity].
  match goal with |- ?P => apply (bool_decide_unpack P) end.
  vm_compute. exact I.
Qed.

Section Validation.

Lemma duplicated_sum_zero (seen col : list Z) :
  duplicated_sum seen col = 0%nat <->
  NoDup col /\ (forall x, x ∈ col -> x ∉ seen).
Proof.
  revert seen. induction col as [|x rest IH]; intros seen; cbn [duplicated_sum].
  - split; [intros _|done]. split; [constructor|]. intros x Hx.
    by apply elem_of_nil in Hx.
  - rewrite NoDup_cons. case_bool_decide as Hseen.
    + split; [discriminate|]. intros [_ Hfresh]. exfalso.
      apply (Hfresh x); [left | exact Hseen].
    + cbn [Nat.add]. rewrite IH. split.
      * intros [Hnd Hfresh]. split; [split; [|exact Hnd]|].
        -- intros Hx. apply (Hfresh x Hx). left.
        -- intros y [->|Hy]%elem_of_cons; [exact Hseen|].
           intros Hy'. apply (Hfresh y Hy). by right.
      * intros [[Hx Hnd] Hfresh]. split; [exact Hnd|].
        intros y Hy [->|Hy']%elem_of_cons; [done|].
        apply (Hfresh y); [by right | exact Hy'].
Qed.

Lemma missing_labels_empty (col : list Z) :
  list_to_set (range 0 88) ∖ list_to_set col = (∅ : gset Z) <->
  forall l, 0 <= l < 88 -> l ∈ col.
Proof.
  unfold range. rewrite elem_of_equiv_empty_L. split.
  - intros Hnone l Hl. destruct (decide (l ∈ col)) as [|Hnot]; [done|].
    exfalso. apply (Hnone l). apply elem_of_difference. split.
    + apply elem_of_list_to_set, elem_of_seqZ. lia.
    + by rewrite elem_of_list_to_set.
  - intros Hall l [Hl%elem_of_list_to_set Hnot]%elem_of_difference.
    apply Hnot, elem_of_list_to_set, Hall. apply elem_of_seqZ in Hl. lia.
Qed.

Lemma foldr_min_least (x : Z) (rest : list Z) :
  foldr Z.min x rest ∈ x :: rest /\
  forall y, y ∈ x :: rest -> foldr Z.min x rest <= y.
Proof.
  induction rest as [|z rest [IHin IHle]]; cbn [foldr].
  - split; [left|]. intros y [->|Hy]%elem_of_cons; [lia|].
    by apply elem_of_nil in Hy.
  - split.
    + destruct (Z.min_spec z (foldr Z.min x rest)) as [[_ ->] | [_ ->]].
      * right; left.
      * apply elem_of_cons in IHin as [Heq|Hin]; [rewrite Heq; left|].
        right; by right.
    + intros y Hy.
      assert (y = z \/ y ∈ x :: rest) as [->|Hy'].
      { apply elem_of_cons in Hy as [->|[->|Hy]%elem_of_cons];
          [right; left | by left | right; by right]. }
      * lia.
      * specialize (IHle y Hy'). lia.
Qed.

Lemma foldr_max_greatest (x : Z) (rest : list Z) :
  foldr Z.max x rest ∈ x :: rest /\
  forall y, y ∈ x :: rest -> y <= foldr Z.max x rest.
Proof.
  induction rest as [|z rest [IHin IHle]]; cbn [foldr].
  - split; [left|]. intros y [->|Hy]%elem_of_cons; [lia|].
    by apply elem_of_nil in Hy.
  - split.
    + destruct (Z.max_spec z (foldr Z.max x rest)) as [[_ ->] | [_ ->]].
      * apply elem_of_cons in IHin as [Heq|Hin]; [rewrite Heq; left|].
        right; by right.
      * right; left.
    + intros y Hy.
      assert (y = z \/ y ∈ x :: rest) as [->|Hy'].
      { apply elem_of_cons in Hy as [->|[->|Hy]%elem_of_cons];
          [right; left | by left | right; by right]. }
      * lia.
      * specialize (IHle y Hy'). lia.
Qed.

(** A column that rearranges 0..87 gives a clean report. *)
Lemma validation_report_clean_columns (df : DataFrame) :
  Label df ≡ₚ seqZ 0 88 ->
  total (validation_report df) = 88%nat /\
  duplicate_count (validation_report df) = 0%nat /\
  missing_labels (validation_report df) = ∅ /\
  label_min (validation_report df) = Some 0 /\
  label_max (validation_report df) = Some 87.
Proof.
  cbn [validation_report total duplicate_count missing_labels label_min label_max].
  rewrite duplicated_sum_zero, missing_labels_empty. intros Hperm.
  assert (forall l, l ∈ Label df <-> 0 <= l < 88) as Hmem.
  { intros l. rewrite Hperm, elem_of_seqZ. lia. }
  split; [by rewrite Hperm|]. split; [split|].
  { rewrite Hperm. apply NoDup_seqZ. }
  { intros x _ Hx. by apply elem_of_nil in Hx. }
  split; [intros l Hl; by apply Hmem|].
  destruct (Label df) as [|x rest] eqn:Hcol.
  { exfalso. specialize (Hmem 0). rewrite elem_of_nil in Hmem. lia. }
  cbn [series_min series_max].
  destruct (foldr_min_least x rest) as [Hmin_in Hmin_le].
  destruct (foldr_max_greatest x rest) as [Hmax_in Hmax_le].
  apply Hmem in Hmin_in, Hmax_in.
  specialize (Hmin_le 0 (proj2 (Hmem 0) ltac:(lia))).
  specialize (Hmax_le 87 (proj2 (Hmem 87) ltac:(lia))).
  split; f_equal; lia.
Qed.

End Validation.

(** X6. What a clean report means, for any data frame: the report shows
    88 rows, no duplicate label and no missing label exactly when the
    [Label] column is a rearrangement of 0..87, and then it shows the
    minimum 0 and the maximum 87. *)
Theorem validation_report_clean_iff (df : DataFrame) :
  (total (validation_report df) = 88%nat /\
   duplicate_count (validation_report df) = 0%nat /\
   missing_labels (validation_report df) = ∅
   <-> Label df ≡ₚ seqZ 0 88) /\
  (Label df ≡ₚ seqZ 0 88 ->
   label_min (validation_report df) = Some 0 /\
   label_max (validation_report df) = Some 87).
Proof.
  split; [split|].
  - cbn [validation_report total duplicate_count missing_labels].
    rewrite duplicated_sum_zero, missing_labels_empty.
    intros (Hlen & [Hnd _] & Hall).
    symmetry. apply submseteq_length_Permutation.
    + apply NoDup_submseteq; [apply NoDup_seqZ|].
      intros l Hl%elem_of_seqZ. apply Hall. lia.
    + rewrite Hlen. reflexivity.
  - intros Hperm.
    destruct (validation_report_clean_columns df Hperm) as (? & ? & ? & _).
    done.
  - intros Hperm.
    destruct (validation_report_clean_columns df Hperm) as (_ & _ & _ & ? & ?).
    done.
Qed.

(** X7. [validate_labeling] returns the frame that
    [create_labeling_dataframe] builds, and reports 88 keys, labels from
    0 to 87, no duplicate and no missing label; the five notes it looks
    up are all found: A0 is 0, C1 is 3, C4 is 39, A4 is 48, C8 is 87. *)
Theorem validate_labeling_report :
  exists (report : ValidationReport) (df : DataFrame),
    validate_labeling = inr (report, df) /\
    create_labeling_dataframe = inr df /\
    total report = 88%nat /\
    label_min report = Some 0 /\ label_max report = Some 87 /\
    duplicate_count report = 0%nat /\
    missing_labels report = ∅ /\
    important report = [("A0", 0); ("C1", 3); ("C4", 39); ("A4", 48); ("C8", 87)].
Proof.
  destruct create_labeling_dataframe_columns as (df & Hdf & _ & Hlabels & _).
  exists (validation_report df), df.
  split; [unfold validate_labeling; by rewrite Hdf|]. split; [exact Hdf|].
  assert (Label df ≡ₚ seqZ 0 88) as Hperm by (by rewrite Hlabels).
  destruct (validation_report_clean_columns df Hperm)
    as (Htotal & Hdup & Hmissing & Hmin & Hmax).
  split; [exact Htotal|]. split; [exact Hmin|]. split; [exact Hmax|].
  split; [exact Hdup|]. split; [exact Hmissing|].
  clear -Hdf. vm_compute in Hdf. injection Hdf as <-. vm_compute. reflexivity.
Qed.

(** X8. The pie chart of [visualize_piano_mapping] names its slices the
    wrong way round: [value_counts] puts the more frequent type first
    (White, 52, then Black, 36) while the labels are given in the fixed
    order 흑건 (black keys), 백건 (white keys), so the slice labelled
    흑건 has the size of the white keys and the one labelled 백건 the
    size of the black keys. *)
Theorem key_type_pie_labels_swapped :
  exists df : DataFrame,
    create_labeling_dataframe = inr df /\
    value_counts (Key_Type df) = [("White", 52%nat); ("Black", 36%nat)] /\
    key_type_pie =
      inr [("흑건", value_count (Key_Type df) "White");
           ("백건", value_count (Key_Type df) "Black")].
Proof.
  eexists. split; [vm_compute; reflexivity|].
  split; vm_compute; reflexivity.
Qed.

(** ** Further properties of [midi_to_mp3.py] *)

Section PipelineInGeneral.

Import MidiToMp3.

Context {World : Type} (os : OS World).

Ltac unfold_prog :=
  cbv beta iota zeta delta [and_then pure throw print isfile isdir negb];
  cbn [world printed calls fst snd].

(** Step 1 starts no program and prints nothing, and passes only when
    both input files exist. *)
Lemma check_paths_frame (midi_path soundfont_path output_mp3_path : string)
    (s : state World) :
  calls (check_paths os midi_path soundfont_path output_mp3_path s).2 = calls s /\
  printed (check_paths os midi_path soundfont_path output_mp3_path s).2 = printed s /\
  ((check_paths os midi_path soundfont_path output_mp3_path s).1 = inr tt ->
   os_isfile os (world s) midi_path = true /\
   os_isfile os (world s) soundfont_path = true).
Proof.
  unfold check_paths. unfold_prog.
  destruct (os_isfile os (world s) midi_path); unfold_prog; [|done].
  destruct (os_isfile os (world s) soundfont_path); unfold_prog; [|done].
  destruct (bool_decide (path_dirname os output_mp3_path <> "")); unfold_prog;
    [|done].
  destruct (os_isdir os (world s) _); unfold_prog; [done|].
  unfold makedirs, lift_os.
  destruct (os_makedirs os (world s) _) as [w [e|]]; done.
Qed.

(** Steps 2 and 3 start their program exactly once, whatever happens. *)
Lemma render_wav_frame (wav_path : string) (cmd : list string) (s : state World) :
  calls (render_wav os wav_path cmd s).2 = calls s ++ [cmd] /\
  exists lines, printed (render_wav os wav_path cmd s).2 = printed s ++ lines.
Proof.
  unfold render_wav, try_except_CalledProcessError, subprocess_run. unfold_prog.
  destruct (os_spawn os (world s) cmd) as [w [e|finished]]; unfold_prog.
  - destruct e; unfold_prog; (split; [reflexivity|]);
      rewrite <- ?app_assoc; by eexists.
  - destruct (returncode finished =? 0); unfold_prog.
    + destruct (os_isfile os w wav_path); unfold_prog; (split; [reflexivity|]);
        rewrite <- ?app_assoc; by eexists.
    + split; [reflexivity|]. rewrite <- !app_assoc. by eexists.
Qed.

Lemma encode_mp3_frame (output_mp3_path : string) (cmd : list string)
    (s : state World) :
  calls (encode_mp3 os output_mp3_path cmd s).2 = calls s ++ [cmd] /\
  exists lines, printed (encode_mp3 os output_mp3_path cmd s).2 = printed s ++ lines.
Proof.
  unfold encode_mp3, try_except_CalledProcessError, subprocess_run. unfold_prog.
  destruct (os_spawn os (world s) cmd) as [w [e|finished]]; unfold_prog.
  - destruct e; unfold_prog; (split; [reflexivity|]);
      rewrite <- ?app_assoc; by eexists.
  - destruct (returncode finished =? 0); unfold_prog.
    + destruct (os_isfile os w output_mp3_path); unfold_prog;
        (split; [reflexivity|]); rewrite <- ?app_assoc; by eexists.
    + split; [reflexivity|]. rewrite <- !app_assoc. by eexists.
Qed.

Lemma delete_wav_frame (keep_wav : bool) (wav_path : string) (s : state World) :
  exists s' lines,
    delete_wav os keep_wav wav_path s = (inr tt, s') /\
    calls s' = calls s /\ printed s' = printed s ++ lines.
Proof.
  unfold delete_wav. destruct keep_wav; cbn [negb].
  - exists s, []. unfold pure. by rewrite app_nil_r.
  - unfold try_except_Exception, remove, lift_os. unfold_prog.
    destruct (os_remove os (world s) wav_path) as [w [e|]]; unfold_prog;
      by eexists _, [_].
Qed.

(** Every run, whatever the operating system does. *)
Lemma midi_to_mp3_trace
    (midi_path soundfont_path output_mp3_path : string)
    (sample_rate vbr_qscale : Z) (keep_wav : bool) (s : state World) :
  let wav_path := wav_path_of os midi_path output_mp3_path in
  let synth := fluidsynth_cmd_of wav_path sample_rate soundfont_path midi_path in
  let encode := ffmpeg_cmd_of wav_path vbr_qscale output_mp3_path in
  let outcome :=
    midi_to_mp3 os midi_path soundfont_path output_mp3_path
      sample_rate vbr_qscale keep_wav s in
  (calls outcome.2 = calls s \/ calls outcome.2 = calls s ++ [synth] \/
   calls outcome.2 = calls s ++ [synth; encode]) /\
  (exists lines, printed outcome.2 = printed s ++ lines) /\
  (forall returned, outcome.1 = inr returned ->
     returned = output_mp3_path /\
     calls outcome.2 = calls s ++ [synth; encode] /\
     os_isfile os (world s) midi_path = true /\
     os_isfile os (world s) soundfont_path = true).
Proof.
  intros wav_path synth encode outcome. subst outcome. unfold midi_to_mp3.
  fold wav_path. fold synth. fold encode.
  destruct (check_paths_frame midi_path soundfont_path output_mp3_path s)
    as (Hc1 & Hp1 & Hfiles).
  destruct (check_paths os midi_path soundfont_path output_mp3_path s)
    as [[e|[]] s1] eqn:H1; cbn [fst snd] in Hc1, Hp1, Hfiles.
  { rewrite (and_then_raise _ _ _ _ _ H1). cbn [fst snd].
    split; [by left|]. split; [exists []; by rewrite app_nil_r | done]. }
  rewrite (and_then_return _ _ _ _ _ H1).
  destruct (render_wav_frame wav_path synth s1) as (Hc2 & lines2 & Hp2).
  destruct (render_wav os wav_path synth s1) as [[e|[]] s2] eqn:H2;
    cbn [fst snd] in Hc2, Hp2; rewrite Hc1 in Hc2; rewrite Hp1 in Hp2.
  { rewrite (and_then_raise _ _ _ _ _ H2). cbn [fst snd].
    split; [right; by left|]. split; [by exists lines2 | done]. }
  rewrite (and_then_return _ _ _ _ _ H2).
  destruct (encode_mp3_frame output_mp3_path encode s2) as (Hc3 & lines3 & Hp3).
  destruct (encode_mp3 os output_mp3_path encode s2) as [[e|[]] s3] eqn:H3;
    cbn [fst snd] in Hc3, Hp3; rewrite Hc2, <- app_assoc in Hc3;
    rewrite Hp2, <- app_assoc in Hp3; cbn [app] in Hc3.
  { rewrite (and_then_raise _ _ _ _ _ H3). cbn [fst snd].
    split; [right; by right|]. split; [by eexists | done]. }
  rewrite (and_then_return _ _ _ _ _ H3).
  destruct (delete_wav_frame keep_wav wav_path s3) as (s4 & lines4 & H4 & Hc4 & Hp4).
  rewrite (and_then_return _ _ _ _ _ H4). unfold pure. cbn [fst snd].
  rewrite Hc3 in Hc4. rewrite Hp3, <- app_assoc in Hp4.
  split; [right; by right|]. split; [by eexists|].
  intros returned [= <-]. destruct (Hfiles eq_refl) as [Hmidi Hsf]. done.
Qed.

End PipelineInGeneral.

Section PipelineEdges.

Import MidiToMp3.

Context {World : Type} (os : OS World).

Ltac unfold_prog :=
  cbv beta iota zeta delta [and_then pure throw print isfile isdir negb];
  cbn [world printed calls fst snd].

(** A program that cannot be started: the exception is not a
    [CalledProcessError], so the handler of step 2 does not run. *)
Lemma render_wav_not_started (wav_path : string) (cmd : list string)
    (s : state World) (w2 : World) (e : exn) :
  os_spawn os (world s) cmd = (w2, inl e) ->
  (forall rc c err, e <> CalledProcessError rc c err) ->
  render_wav os wav_path cmd s =
    (inl e,
     mkState w2
       (printed s ++ ["▶ FluidSynth 명령 실행:" +:+ " " +:+ String.concat " " cmd])
       (calls s ++ [cmd])).
Proof.
  intros Hspawn Hother.
  unfold render_wav, try_except_CalledProcessError, subprocess_run. unfold_prog.
  rewrite Hspawn. destruct e as [msg|rc c err|msg]; unfold_prog; try reflexivity.
  by destruct (Hother rc c err).
Qed.

(** Both programs exit with 0 and leave their files: the state in which
    step 4 starts. *)
Lemma stages_succeed
    (midi_path soundfont_path output_mp3_path : string)
    (sample_rate vbr_qscale : Z) (keep_wav : bool) (s : state World)
    (w1 w2 w3 : World) (synth_done encode_done : CompletedProcess) :
  ready_to_render os midi_path soundfont_path output_mp3_path (world s) w1 ->
  os_spawn os w1
    (fluidsynth_cmd_of (wav_path_of os midi_path output_mp3_path)
       sample_rate soundfont_path midi_path) = (w2, inr synth_done) ->
  returncode synth_done = 0 ->
  os_isfile os w2 (wav_path_of os midi_path output_mp3_path) = true ->
  os_spawn os w2
    (ffmpeg_cmd_of (wav_path_of os midi_path output_mp3_path)
       vbr_qscale output_mp3_path) = (w3, inr encode_done) ->
  returncode encode_done = 0 ->
  os_isfile os w3 output_mp3_path = true ->
  exists lines : list string,
    midi_to_mp3 os midi_path soundfont_path output_mp3_path
        sample_rate vbr_qscale keep_wav s =
      and_then (delete_wav os keep_wav (wav_path_of os midi_path output_mp3_path))
        (fun _ => pure output_mp3_path)
        (mkState w3
           (printed s ++ lines ++ ["✓ MP3 파일 생성 완료: " +:+ output_mp3_path])
           (calls s ++
              [fluidsynth_cmd_of (wav_path_of os midi_path output_mp3_path)
                 sample_rate soundfont_path midi_path;
               ffmpeg_cmd_of (wav_path_of os midi_path output_mp3_path)
                 vbr_qscale output_mp3_path])).
Proof.
  intros Hready Hsynth Hrc Hwav Hencode Hrc2 Hmp3. unfold midi_to_mp3.
  set (wav_path := wav_path_of os midi_path output_mp3_path) in *.
  set (synth := fluidsynth_cmd_of wav_path sample_rate soundfont_path midi_path) in *.
  set (encode := ffmpeg_cmd_of wav_path vbr_qscale output_mp3_path) in *.
  rewrite (and_then_return _ _ _ _ _ (check_paths_ready os _ _ _ _ w1 Hready)).
  destruct (render_wav_outcome os wav_path synth
              (mkState w1 (printed s) (calls s)) w2 synth_done Hsynth)
    as (lines & Hrender & _).
  cbn [world printed calls] in Hrender.
  rewrite Hrc, Hwav in Hrender. rewrite (and_then_return _ _ _ _ _ Hrender).
  assert (encode_mp3 os output_mp3_path encode
            (mkState w2 (printed s ++ lines) (calls s ++ [synth])) =
          (inr tt,
           mkState w3
             ((printed s ++ lines) ++
                ["▶ FFmpeg 명령 실행:" +:+ " " +:+ String.concat " " encode;
                 "✓ MP3 파일 생성 완료: " +:+ output_mp3_path])
             ((calls s ++ [synth]) ++ [encode]))) as Hencoded.
  { unfold encode_mp3, try_except_CalledProcessError, subprocess_run. unfold_prog.
    rewrite Hencode, Hrc2. cbn [Z.eqb]. unfold_prog. rewrite Hmp3. unfold_prog.
    by rewrite <- !app_assoc. }
  rewrite (and_then_return _ _ _ _ _ Hencoded).
  exists (lines ++ ["▶ FFmpeg 명령 실행:" +:+ " " +:+ String.concat " " encode]).
  rewrite <- !app_assoc. reflexivity.
Qed.

(** X9. When FluidSynth cannot be started at all (the exception is not a
    [CalledProcessError]), the exception leaves [midi_to_mp3] as it is:
    only the line announcing the command has been printed, none of the
    handler's error lines, and FFmpeg is not started. *)
Theorem midi_to_mp3_synth_not_started
    (midi_path soundfont_path output_mp3_path : string)
    (sample_rate vbr_qscale : Z) (keep_wav : bool) (s : state World)
    (w1 w2 : World) (e : exn) :
  ready_to_render os midi_path soundfont_path output_mp3_path (world s) w1 ->
  os_spawn os w1
    (fluidsynth_cmd_of (wav_path_of os midi_path output_mp3_path)
       sample_rate soundfont_path midi_path) = (w2, inl e) ->
  (forall rc c err, e <> CalledProcessError rc c err) ->
  midi_to_mp3 os midi_path soundfont_path output_mp3_path
      sample_rate vbr_qscale keep_wav s =
    (inl e,
     mkState w2
       (printed s ++
          ["▶ FluidSynth 명령 실행:" +:+ " " +:+
             String.concat " "
               (fluidsynth_cmd_of (wav_path_of os midi_path output_mp3_path)
                  sample_rate soundfont_path midi_path)])
       (calls s ++
          [fluidsynth_cmd_of (wav_path_of os midi_path output_mp3_path)
             sample_rate soundfont_path midi_path])).
Proof.
  intros Hready Hspawn Hother. unfold midi_to_mp3.
  rewrite (and_then_return _ _ _ _ _ (check_paths_ready os _ _ _ _ w1 Hready)).
  apply and_then_raise.
  by apply (render_wav_not_started _ _ (mkState w1 (printed s) (calls s))).
Qed.

(** X10. When the output folder is missing and cannot be created, the
    exception of [os.makedirs] leaves [midi_to_mp3] before anything is
    printed or any program is started. *)
Theorem midi_to_mp3_makedirs_fails
    (midi_path soundfont_path output_mp3_path : string)
    (sample_rate vbr_qscale : Z) (keep_wav : bool) (s : state World)
    (w1 : World) (e : exn) :
  os_isfile os (world s) midi_path = true ->
  os_isfile os (world s) soundfont_path = true ->
  path_dirname os output_mp3_path <> "" ->
  os_isdir os (world s) (path_dirname os output_mp3_path) = false ->
  os_makedirs os (world s) (path_dirname os output_mp3_path) = (w1, Some e) ->
  midi_to_mp3 os midi_path soundfont_path output_mp3_path
      sample_rate vbr_qscale keep_wav s =
    (inl e, mkState w1 (printed s) (calls s)).
Proof.
  intros Hmidi Hsf Hdir Hisdir Hmk. unfold midi_to_mp3.
  apply and_then_raise. unfold check_paths. unfold_prog.
  rewrite Hmidi. unfold_prog. rewrite Hsf. unfold_prog.
  rewrite bool_decide_eq_true_2 by exact Hdir. unfold_prog.
  rewrite Hisdir. unfold_prog. unfold makedirs, lift_os. by rewrite Hmk.
Qed.

(** X11. With [keep_wav=True] a successful conversion never touches the
    intermediate WAV file: the world it ends in is the one FFmpeg left,
    the last line printed is the MP3 confirmation, and
    [output_mp3_path] is returned. *)
Theorem midi_to_mp3_keeps_wav
    (midi_path soundfont_path output_mp3_path : string)
    (sample_rate vbr_qscale : Z) (s : state World)
    (w1 w2 w3 : World) (synth_done encode_done : CompletedProcess) :
  ready_to_render os midi_path soundfont_path output_mp3_path (world s) w1 ->
  os_spawn os w1
    (fluidsynth_cmd_of (wav_path_of os midi_path output_mp3_path)
       sample_rate soundfont_path midi_path) = (w2, inr synth_done) ->
  returncode synth_done = 0 ->
  os_isfile os w2 (wav_path_of os midi_path output_mp3_path) = true ->
  os_spawn os w2
    (ffmpeg_cmd_of (wav_path_of os midi_path output_mp3_path)
       vbr_qscale output_mp3_path) = (w3, inr encode_done) ->
  returncode encode_done = 0 ->
  os_isfile os w3 output_mp3_path = true ->
  let outcome :=
    midi_to_mp3 os midi_path soundfont_path output_mp3_path
      sample_rate vbr_qscale true s in
  outcome.1 = inr output_mp3_path /\
  world outcome.2 = w3 /\
  last (printed outcome.2) = Some ("✓ MP3 파일 생성 완료: " +:+ output_mp3_path).
Proof.
  intros Hready Hsynth Hrc Hwav Hencode Hrc2 Hmp3 outcome. subst outcome.
  destruct (stages_succeed _ _ _ sample_rate vbr_qscale true s w1 w2 w3 _ _
              Hready Hsynth Hrc Hwav Hencode Hrc2 Hmp3) as (lines & ->).
  unfold delete_wav. unfold_prog.
  split; [reflexivity|]. split; [reflexivity|].
  rewrite !app_assoc. apply last_snoc.
Qed.

(** X12. Whatever the operating system does, one call starts at most two
    programs, FluidSynth first and FFmpeg only after it, each at most
    once; it only adds lines to the output; and it returns only
    [output_mp3_path], only after both programs were started, and only if
    both input files existed at the start. *)
Theorem midi_to_mp3_starts_at_most_two_programs
    (midi_path soundfont_path output_mp3_path : string)
    (sample_rate vbr_qscale : Z) (keep_wav : bool) (s : state World) :
  let wav_path := wav_path_of os midi_path output_mp3_path in
  let synth := fluidsynth_cmd_of wav_path sample_rate soundfont_path midi_path in
  let encode := ffmpeg_cmd_of wav_path vbr_qscale output_mp3_path in
  let outcome :=
    midi_to_mp3 os midi_path soundfont_path output_mp3_path
      sample_rate vbr_qscale keep_wav s in
  (calls outcome.2 = calls s \/ calls outcome.2 = calls s ++ [synth] \/
   calls outcome.2 = calls s ++ [synth; encode]) /\
  (exists lines, printed outcome.2 = printed s ++ lines) /\
  (forall returned, outcome.1 = inr returned ->
     returned = output_mp3_path /\
     calls outcome.2 = calls s ++ [synth; encode] /\
     os_isfile os (world s) midi_path = true /\
     os_isfile os (world s) soundfont_path = true).
Proof. apply midi_to_mp3_trace. Qed.

(** X15. With [keep_wav=False] and a deletion that succeeds, the call
    ends in the world [os.remove] left, its last line confirms the
    deletion of the WAV file, and [output_mp3_path] is returned. *)
Theorem midi_to_mp3_deletes_wav
    (midi_path soundfont_path output_mp3_path : string)
    (sample_rate vbr_qscale : Z) (s : state World)
    (w1 w2 w3 w4 : World) (synth_done encode_done : CompletedProcess) :
  ready_to_render os midi_path soundfont_path output_mp3_path (world s) w1 ->
  os_spawn os w1
    (fluidsynth_cmd_of (wav_path_of os midi_path output_mp3_path)
       sample_rate soundfont_path midi_path) = (w2, inr synth_done) ->
  returncode synth_done = 0 ->
  os_isfile os w2 (wav_path_of os midi_path output_mp3_path) = true ->
  os_spawn os w2
    (ffmpeg_cmd_of (wav_path_of os midi_path output_mp3_path)
       vbr_qscale output_mp3_path) = (w3, inr encode_done) ->
  returncode encode_done = 0 ->
  os_isfile os w3 output_mp3_path = true ->
  os_remove os w3 (wav_path_of os midi_path output_mp3_path) = (w4, None) ->
  let outcome :=
    midi_to_mp3 os midi_path soundfont_path output_mp3_path
      sample_rate vbr_qscale false s in
  outcome.1 = inr output_mp3_path /\
  world outcome.2 = w4 /\
  last (printed outcome.2) =
    Some ("✓ 중간 WAV 파일 삭제 완료: " +:+ wav_path_of os midi_path output_mp3_path).
Proof.
  intros Hready Hsynth Hrc Hwav Hencode Hrc2 Hmp3 Hremove outcome. subst outcome.
  destruct (stages_succeed _ _ _ sample_rate vbr_qscale false s w1 w2 w3 _ _
              Hready Hsynth Hrc Hwav Hencode Hrc2 Hmp3) as (lines & ->).
  unfold delete_wav, try_except_Exception, remove, lift_os. unfold_prog.
  rewrite Hremove. unfold_prog.
  split; [reflexivity|]. split; [reflexivity|]. apply last_snoc.
Qed.

End PipelineEdges.

Section PipelineEdgeRuns.

Import MidiToMp3.

Lemma midi_to_mp3_synth_not_started_witness :
  (midi_to_mp3 (refusing_os false false)
     "in/song.mid" "sf/piano.sf2" "out/song.mp3" 44100 2 false
     (mkState ["in/song.mid"; "sf/piano.sf2"] [] [])).1
    = inl (FileNotFoundError "[Errno 2] No such file or directory").
Proof.
  refine (f_equal fst
    (midi_to_mp3_synth_not_started (refusing_os false false)
       "in/song.mid" "sf/piano.sf2" "out/song.mp3" 44100 2 false
       (mkState ["in/song.mid"; "sf/piano.sf2"] [] [])
       ["in/song.mid"; "sf/piano.sf2"] ["in/song.mid"; "sf/piano.sf2"]
       (FileNotFoundError "[Errno 2] No such file or directory") _ _ _)).
  - split; [reflexivity|]. split; reflexivity.
  - reflexivity.
  - discriminate.
Defined.

Lemma midi_to_mp3_makedirs_fails_witness :
  midi_to_mp3 (refusing_os true true)
     "in/song.mid" "sf/piano.sf2" "out/song.mp3" 44100 2 false
     (mkState ["in/song.mid"; "sf/piano.sf2"] [] [])
    = (inl (OSError "[Errno 13] Permission denied"),
       mkState ["in/song.mid"; "sf/piano.sf2"] [] []).
Proof.
  refine (midi_to_mp3_makedirs_fails (refusing_os true true)
            "in/song.mid" "sf/piano.sf2" "out/song.mp3" 44100 2 false
            (mkState ["in/song.mid"; "sf/piano.sf2"] [] [])
            ["in/song.mid"; "sf/piano.sf2"]
            (OSError "[Errno 13] Permission denied") _ _ _ _ _).
  all: try reflexivity. discriminate.
Defined.

Lemma midi_to_mp3_keeps_wav_witness :
  let outcome :=
    midi_to_mp3 (simple_os (mkScenario 0 true 0 true false))
      "in/song.mid" "sf/piano.sf2" "out/song.mp3" 44100 2 true
      (mkState ["in/song.mid"; "sf/piano.sf2"] [] []) in
  outcome.1 = inr "out/song.mp3" /\
  world outcome.2 =
    ["out/song.mp3"; "out/song.wav"; "in/song.mid"; "sf/piano.sf2"].
Proof.
  cbv zeta.
  destruct (midi_to_mp3_keeps_wav (simple_os (mkScenario 0 true 0 true false))
              "in/song.mid" "sf/piano.sf2" "out/song.mp3" 44100 2
              (mkState ["in/song.mid"; "sf/piano.sf2"] [] [])
              ["in/song.mid"; "sf/piano.sf2"]
              ["out/song.wav"; "in/song.mid"; "sf/piano.sf2"]
              ["out/song.mp3"; "out/song.wav"; "in/song.mid"; "sf/piano.sf2"]
              (mkCompleted 0 "" "fluidsynth: stopped")
              (mkCompleted 0 "" "ffmpeg: stopped"))
    as (Hreturned & Hworld & _); try reflexivity.
  - split; [reflexivity|]. split; reflexivity.
  - split; [exact Hreturned | exact Hworld].
Defined.

Lemma midi_to_mp3_deletes_wav_witness :
  let outcome :=
    midi_to_mp3 (simple_os (mkScenario 0 true 0 true false))
      "in/song.mid" "sf/piano.sf2" "out/song.mp3" 44100 2 false
      (mkState ["in/song.mid"; "sf/piano.sf2"] [] []) in
  outcome.1 = inr "out/song.mp3" /\
  world outcome.2 = ["out/song.mp3"; "in/song.mid"; "sf/piano.sf2"].
Proof.
  cbv zeta.
  destruct (midi_to_mp3_deletes_wav (simple_os (mkScenario 0 true 0 true false))
              "in/song.mid" "sf/piano.sf2" "out/song.mp3" 44100 2
              (mkState ["in/song.mid"; "sf/piano.sf2"] [] [])
              ["in/song.mid"; "sf/piano.sf2"]
              ["out/song.wav"; "in/song.mid"; "sf/piano.sf2"]
              ["out/song.mp3"; "out/song.wav"; "in/song.mid"; "sf/piano.sf2"]
              ["out/song.mp3"; "in/song.mid"; "sf/piano.sf2"]
              (mkCompleted 0 "" "fluidsynth: stopped")
              (mkCompleted 0 "" "ffmpeg: stopped"))
    as (Hreturned & Hworld & _); try reflexivity.
  - split; [reflexivity|]. split; reflexivity.
  - split; [exact Hreturned | exact Hworld].
Defined.

End PipelineEdgeRuns.

Lemma dict_zip_list_to_map `{Countable K} {V} (ks : list K) (vs : list V) :
  NoDup ks -> length ks = length vs ->
  dict_zip ks vs = list_to_map (zip ks vs).
Proof.
  intros Hnd Hlen. apply map_eq. intros k. apply option_eq. intros v.
  rewrite dict_zip_lookup by done.
  apply elem_of_list_to_map. rewrite fst_zip by lia. exact Hnd.
Qed.

(** X16. The two dictionaries built at the end of the script are inverse
    to each other for every data frame whose [Note] and [Label] columns
    have no repeated entry: a name maps to a label in [note_to_label]
    exactly when that label maps back to the name in [label_to_note],
    and both have one entry per row. *)
Theorem dictionaries_inverse (df : DataFrame) :
  NoDup (Note df) -> NoDup (Label df) ->
  length (Note df) = length (Label df) ->
  (forall (note : string) (label : Z),
     note_to_label df !! note = Some label <->
     label_to_note df !! label = Some note) /\
  size (note_to_label df) = length (Note df) /\
  size (label_to_note df) = length (Note df).
Proof.
  intros Hnotes Hlabels Hlen.
  assert (forall note label, note_to_label df !! note = Some label <->
                             (note, label) ∈ zip (Note df) (Label df)) as Hfwd.
  { intros. apply dict_zip_lookup; [exact Hnotes | exact Hlen]. }
  assert (forall note label, label_to_note df !! label = Some note <->
                             (label, note) ∈ zip (Label df) (Note df)) as Hbwd.
  { intros. apply dict_zip_lookup; [exact Hlabels | by symmetry]. }
  split.
  { intros note label. rewrite Hfwd, Hbwd. apply elem_of_zip_swap. }
  unfold note_to_label, label_to_note.
  rewrite !dict_zip_list_to_map by (done || by symmetry).
  rewrite !map_size_list_to_map.
  - rewrite !length_zip. lia.
  - rewrite fst_zip by lia. exact Hlabels.
  - rewrite fst_zip by lia. exact Hnotes.
Qed.

Lemma dictionaries_inverse_witness :
  let df := mkDataFrame ["B0"; "C1"] [2; 3] [23; 24] [0; 1] ["B"; "C"] in
  note_to_label df !! "C1" = Some 3 <-> label_to_note df !! 3 = Some "C1".
Proof.
  cbv zeta.
  refine (proj1 (dictionaries_inverse
                   (mkDataFrame ["B0"; "C1"] [2; 3] [23; 24] [0; 1] ["B"; "C"])
                   _ _ _) "C1" 3).
  - apply (bool_decide_unpack (NoDup ["B0"; "C1"])). vm_compute. exact I.
  - apply (bool_decide_unpack (NoDup [2; 3])). vm_compute. exact I.
  - reflexivity.
Defined.

(** ** The lookup on every Python string *)

Section UnicodeLookup.

Lemma code_points_snoc (s : string) (c : ascii) :
  Unicode.code_points (s +:+ String c "") = Unicode.code_points s ++ [N_of_ascii c].
Proof.
  unfold Unicode.code_points.
  assert (String.list_ascii_of_string (s +:+ String c "")
          = String.list_ascii_of_string s ++ [c]) as ->.
  { induction s as [|a s IH]; [reflexivity|].
    change (a :: String.list_ascii_of_string (s +:+ String c "")
            = a :: (String.list_ascii_of_string s ++ [c])).
    by f_equal. }
  by rewrite fmap_app.
Qed.

Lemma code_points_inj (s1 s2 : string) :
  Unicode.code_points s1 = Unicode.code_points s2 -> s1 = s2.
Proof.
  unfold Unicode.code_points. revert s2.
  induction s1 as [|a s1 IH]; intros [|b s2]; cbn; try done.
  intros [= Hab Hrest]. f_equal; [|by apply IH].
  rewrite <- (ascii_N_embedding a), <- (ascii_N_embedding b). by rewrite Hab.
Qed.

Lemma unicode_lookup_snoc (note_name : list N) (c : N) :
  Unicode.midi_note_to_key_number (note_name ++ [c]) =
    (do octave <- Unicode.int_of_char c;
     do offset <- match Unicode.note_map !! note_name with
                  | Some v => ret v
                  | None => raise (Unicode.KeyError note_name)
                  end;
     ret ((octave + 1) * 12 + offset - 21)).
Proof.
  unfold Unicode.midi_note_to_key_number, Unicode.index_last.
  rewrite removelast_last, last_snoc. reflexivity.
Qed.

(** The four ways a call can end. *)
Lemma unicode_lookup_cases (note : list N) :
  (note = [] /\ Unicode.midi_note_to_key_number note = inl Unicode.IndexError) \/
  (exists note_name c,
     note = note_name ++ [c] /\ Unicode.decimal c = None /\
     Unicode.midi_note_to_key_number note = inl Unicode.ValueError) \/
  (exists note_name c d,
     note = note_name ++ [c] /\ Unicode.decimal c = Some d /\
     Unicode.note_map !! note_name = None /\
     Unicode.midi_note_to_key_number note = inl (Unicode.KeyError note_name)) \/
  (exists note_name c d offset,
     note = note_name ++ [c] /\ Unicode.decimal c = Some d /\
     Unicode.note_map !! note_name = Some offset /\
     Unicode.midi_note_to_key_number note = inr ((d + 1) * 12 + offset - 21)).
Proof.
  destruct note as [|c note_name _] using rev_ind; [left; done|]. right.
  rewrite unicode_lookup_snoc. unfold Unicode.int_of_char.
  destruct (Unicode.decimal c) as [d|] eqn:Hc.
  - destruct (Unicode.note_map !! note_name) as [offset|] eqn:Hname.
    + right; right. by exists note_name, c, d, offset.
    + right; left. by exists note_name, c, d.
  - left. by exists note_name, c.
Qed.

Lemma unicode_note_map_latin1 (note_name : string) :
  Unicode.note_map !! Unicode.code_points note_name = Labeling.note_map !! note_name.
Proof.
  unfold Unicode.note_map, Labeling.note_map.
  induction note_map_items as [|[k v] items IH]; [reflexivity|].
  rewrite fmap_cons. cbn [fst snd]. rewrite !list_to_map_cons.
  destruct (decide (k = note_name)) as [->|Hne].
  - by rewrite !lookup_insert_eq.
  - rewrite !lookup_insert_ne; [exact IH | done |].
    intros Heq. by apply code_points_inj in Heq.
Qed.

Lemma unicode_note_map_source (key : list N) (offset : Z) :
  Unicode.note_map !! key = Some offset ->
  exists note_name,
    key = Unicode.code_points note_name /\
    Labeling.note_map !! note_name = Some offset.
Proof.
  intros Hkey. pose proof Hkey as Hin. unfold Unicode.note_map in Hin.
  apply elem_of_list_to_map_2 in Hin.
  apply list_elem_of_fmap in Hin as ([n o] & [= -> ->] & _). cbn [fst snd] in *.
  exists n. split; [reflexivity|]. by rewrite <- unicode_note_map_latin1.
Qed.

Lemma unicode_note_map_tokens (key : list N) :
  is_Some (Unicode.note_map !! key) <-> key ∈ Unicode.tokens.
Proof.
  unfold Unicode.tokens. rewrite list_elem_of_fmap. split.
  - intros [offset (n & -> & Hn)%unicode_note_map_source].
    exists n. split; [reflexivity|]. apply note_map_recognized. by eexists.
  - intros (n & -> & Hn). rewrite unicode_note_map_latin1.
    by apply note_map_recognized.
Qed.

Lemma decimal_range (c : N) (d : Z) :
  Unicode.decimal c = Some d -> 0 <= d <= 9.
Proof.
  unfold Unicode.decimal.
  destruct (List.find _ _) as [start|] eqn:Hfind; [|discriminate].
  apply List.find_some in Hfind as [_ [H1%N.leb_le H2%N.ltb_lt]%andb_true_iff].
  intros [= <-]. lia.
Qed.

Lemma decimal_ascii (c : N) :
  Unicode.ascii_digit c -> Unicode.decimal c = Some (Z.of_N c - 48).
Proof.
  unfold Unicode.ascii_digit, Unicode.decimal, Unicode.decimal_runs.
  intros Hc. cbn [List.find].
  replace ((48 <=? c)%N && (c <? 48 + 10)%N) with true.
  - cbn [fmap option_fmap option_map]. f_equal. lia.
  - symmetry. apply andb_true_iff. split; [apply N.leb_le | apply N.ltb_lt]; lia.
Qed.

Lemma decimal_latin1 (a : ascii) :
  Unicode.decimal (N_of_ascii a) =
    if is_digit a then Some (digit_value a) else None.
Proof. destruct a as [[] [] [] [] [] [] [] []]; vm_compute; reflexivity. Qed.

(** On a string whose characters are all below code point 256 the two
    models of the lookup agree. *)
Lemma unicode_lookup_latin1 (note : string) :
  Unicode.midi_note_to_key_number (Unicode.code_points note) =
    match Labeling.midi_note_to_key_number note with
    | inl e => inl (Unicode.of_latin1_exn e)
    | inr label => inr label
    end.
Proof.
  destruct (midi_note_to_key_number_cases note)
    as [[-> ->] | [(n & c & -> & Hc & ->) | [(n & c & -> & Hc & Hname & ->)
        | (n & c & offset & -> & Hc & Hname & ->)]]]; [reflexivity|..];
    rewrite code_points_snoc, unicode_lookup_snoc; unfold Unicode.int_of_char;
    rewrite decimal_latin1, Hc; cbn [bind ret raise]; [reflexivity|..];
    rewrite unicode_note_map_latin1, Hname; reflexivity.
Qed.

End UnicodeLookup.

Section UnicodeClaims.

Lemma unicode_lookup_inv (note : list N) (label : Z) :
  Unicode.midi_note_to_key_number note = inr label ->
  exists note_name c d offset,
    note = note_name ++ [c] /\ Unicode.decimal c = Some d /\
    Unicode.note_map !! note_name = Some offset /\
    label = (d + 1) * 12 + offset - 21.
Proof.
  intros Hmidi.
  destruct (unicode_lookup_cases note)
    as [[_ H] | [(n & c & _ & _ & H) | [(n & c & d & _ & _ & _ & H)
        | (n & c & d & offset & Hnote & Hc & Hname & H)]]];
    rewrite H in Hmidi; try discriminate.
  injection Hmidi as <-. by exists n, c, d, offset.
Qed.

Lemma accepted_returns (note : list N) :
  Unicode.accepted note <-> exists label, Unicode.midi_note_to_key_number note = inr label.
Proof.
  split.
  - intros (n & c & -> & [offset Hn]%unicode_note_map_tokens & [d Hc]).
    rewrite unicode_lookup_snoc. unfold Unicode.int_of_char.
    rewrite Hc. cbn [bind ret]. rewrite Hn. by eexists.
  - intros [label (n & c & d & offset & -> & Hc & Hn & _)%unicode_lookup_inv].
    exists n, c. split; [reflexivity|]. split; [|by eexists].
    apply unicode_note_map_tokens. by eexists.
Qed.

End UnicodeClaims.

(** C4, as the claim states it, fails on the name made of the token C and
    the character U+0663 (ARABIC-INDIC DIGIT THREE): its last character
    is none of the digits 0 to 9, yet the lookup does not raise and
    returns 27. *)
Lemma midi_note_to_key_number_raises_iff_counterexample :
  Unicode.midi_note_to_key_number [67; 1635]%N = inr 27 /\
  ~ Unicode.well_formed [67; 1635]%N /\
  ~ (Py.raises (Unicode.midi_note_to_key_number [67; 1635]%N) <->
     ~ Unicode.well_formed [67; 1635]%N).
Proof.
  assert (Unicode.midi_note_to_key_number [67; 1635]%N = inr 27) as Hruns
    by (vm_compute; reflexivity).
  assert (~ Unicode.well_formed [67; 1635]%N) as Hnot.
  { intros (n & c & Heq & _ & Hc).
    apply (app_inj_tail [67%N] n 1635%N c) in Heq as [_ <-].
    unfold Unicode.ascii_digit in Hc. lia. }
  split; [exact Hruns|]. split; [exact Hnot|].
  intros [_ Hraises]. destruct (Hraises Hnot) as [e He].
  rewrite Hruns in He. discriminate.
Qed.

(** C4, amended. The lookup raises exactly when its argument is not a
    recognized note token followed by one character with a decimal
    digit value; such a character is any decimal digit of Unicode, not
    only 0 to 9. On names whose last character is not one of those other
    digits it raises exactly when the name is not a token followed by
    one of 0 to 9. "H4" raises [KeyError] for the token "H", and "C",
    which has no octave, raises [ValueError]. *)
Theorem midi_note_to_key_number_raises_iff_decimal :
  (forall note : list N,
     Py.raises (Unicode.midi_note_to_key_number note) <-> ~ Unicode.accepted note) /\
  (forall note : list N,
     (forall c, last note = Some c -> is_Some (Unicode.decimal c) ->
                Unicode.ascii_digit c) ->
     (Py.raises (Unicode.midi_note_to_key_number note) <->
      ~ Unicode.well_formed note)) /\
  Unicode.midi_note_to_key_number (Unicode.code_points "H4")
    = inl (Unicode.KeyError (Unicode.code_points "H")) /\
  Unicode.midi_note_to_key_number (Unicode.code_points "C")
    = inl Unicode.ValueError.
Proof.
  assert (forall note : list N,
            Py.raises (Unicode.midi_note_to_key_number note) <->
            ~ Unicode.accepted note) as Hiff.
  { intros note. rewrite accepted_returns. unfold Py.raises. split.
    - intros [e He] [label Hl]. rewrite He in Hl. discriminate.
    - intros Hnone.
      destruct (Unicode.midi_note_to_key_number note) as [e|label];
        [by exists e|]. exfalso. apply Hnone. by exists label. }
  split; [exact Hiff|]. split; [|by vm_compute].
  intros note Hlast. rewrite Hiff.
  assert (Unicode.accepted note <-> Unicode.well_formed note) as ->; [|done].
  split.
  - intros (n & c & -> & Hn & Hc). exists n, c.
    split; [reflexivity|]. split; [exact Hn|].
    apply Hlast; [apply last_snoc | exact Hc].
  - intros (n & c & -> & Hn & Hc). exists n, c.
    split; [reflexivity|]. split; [exact Hn|].
    rewrite (decimal_ascii c Hc). by eexists.
Qed.

(** X1. Two names with the same label have the same note token and the
    same octave value, and they are the same string when both end in
    one of the digits 0 to 9. (The lookup is not injective on all
    strings: the octave may be written with any decimal digit of
    Unicode.) *)
Theorem same_label_same_key (note1 note2 : list N) (label : Z) :
  Unicode.midi_note_to_key_number note1 = inr label ->
  Unicode.midi_note_to_key_number note2 = inr label ->
  removelast note1 = removelast note2 /\
  (exists c1 c2 d,
     last note1 = Some c1 /\ last note2 = Some c2 /\
     Unicode.decimal c1 = Some d /\ Unicode.decimal c2 = Some d) /\
  ((forall c, last note1 = Some c \/ last note2 = Some c -> Unicode.ascii_digit c) ->
   note1 = note2).
Proof.
  intros (n1 & c1 & d1 & o1 & -> & Hc1 & Hn1 & Hl1)%unicode_lookup_inv
         (n2 & c2 & d2 & o2 & -> & Hc2 & Hn2 & Hl2)%unicode_lookup_inv.
  destruct (unicode_note_map_source _ _ Hn1) as (s1 & -> & Hs1).
  destruct (unicode_note_map_source _ _ Hn2) as (s2 & -> & Hs2).
  destruct (note_map_index _ _ Hs1) as [Ho1 _].
  destruct (note_map_index _ _ Hs2) as [Ho2 _].
  pose proof (decimal_range _ _ Hc1) as Hd1.
  pose proof (decimal_range _ _ Hc2) as Hd2.
  assert (d1 = d2 /\ o1 = o2) as [-> ->] by lia.
  rewrite (note_map_inj _ _ _ Hs1 Hs2). rewrite !removelast_last, !last_snoc.
  split; [reflexivity|]. split; [by exists c1, c2, d2|].
  intros Hascii.
  pose proof (decimal_ascii c1 (Hascii c1 (or_introl eq_refl))) as H1.
  pose proof (decimal_ascii c2 (Hascii c2 (or_intror eq_refl))) as H2.
  rewrite Hc1 in H1. rewrite Hc2 in H2.
  assert (c1 = c2) as -> by (injection H1; injection H2; lia).
  reflexivity.
Qed.

Lemma same_label_same_key_witness :
  Unicode.midi_note_to_key_number (Unicode.code_points "C3") = inr 27 /\
  Unicode.midi_note_to_key_number [67; 1635]%N = inr 27 /\
  Unicode.code_points "C3" <> [67; 1635]%N /\
  removelast (Unicode.code_points "C3") = removelast [67; 1635]%N.
Proof.
  assert (Unicode.midi_note_to_key_number (Unicode.code_points "C3") = inr 27)
    as H1 by (vm_compute; reflexivity).
  assert (Unicode.midi_note_to_key_number [67; 1635]%N = inr 27) as H2
    by (vm_compute; reflexivity).
  split; [exact H1|]. split; [exact H2|]. split; [discriminate|].
  exact (proj1 (same_label_same_key _ _ 27 H1 H2)).
Defined.

Lemma midi_note_to_key_number_raises_iff_decimal_witness :
  (forall c, last [65; 48]%N = Some c -> is_Some (Unicode.decimal c) ->
             Unicode.ascii_digit c) /\
  (Py.raises (Unicode.midi_note_to_key_number [65; 48]%N) <->
   ~ Unicode.well_formed [65; 48]%N).
Proof.
  assert (forall c, last [65; 48]%N = Some c -> is_Some (Unicode.decimal c) ->
                    Unicode.ascii_digit c) as Hlast.
  { intros c [= <-] _. unfold Unicode.ascii_digit. lia. }
  split; [exact Hlast|].
  exact (proj1 (proj2 midi_note_to_key_number_raises_iff_decimal) [65; 48]%N Hlast).
Defined.
